(* ===================================================================== *)
(*  tradingbot: a shallow embedding of the trading core                  *)
(*  (src/trading/state.ts, position.ts, risk.ts, engine.ts) in Rocq.     *)
(*                                                                       *)
(*  JavaScript numbers are modelled as exact rationals (Q).  The only    *)
(*  rounding the code performs on purpose, [fixedNumber] of              *)
(*  core/utils.ts (Number(x.toFixed(8))), is written out explicitly.     *)
(*  Dates are modelled as integers (milliseconds, or calendar days for   *)
(*  the risk manager, whose code only compares days).                    *)
(* ===================================================================== *)

From Stdlib Require Import QArith Qround Qabs Lqa Lia List String Bool.
From Stdlib Require Import Sorting.Mergesort Sorting.Sorted Sorting.Permutation Orders.
Import ListNotations.
Open Scope Q_scope.

(* --------------------------------------------------------------------- *)
(*  core/utils.ts                                                        *)
(* --------------------------------------------------------------------- *)

Definition PRECISION_SCALE : positive := 100000000. (* 10 ^ PRECISION, PRECISION = 8 *)

(** [fixedNumber num = Number(Number(num).toFixed(8))].  [toFixed] picks the
    closest multiple of 10^-8, the larger one on a tie, and handles a
    negative argument by formatting its absolute value behind a minus sign:
    i.e. round half away from zero at 8 decimals. *)
Definition fixedNumber (num : Q) : Q :=
  if Qle_bool 0 num
  then Qfloor (num * inject_Z (Zpos PRECISION_SCALE) + (1#2)) # PRECISION_SCALE
  else - (Qfloor (- num * inject_Z (Zpos PRECISION_SCALE) + (1#2)) # PRECISION_SCALE).

(** [Math.max] / [Math.min] on two (non-NaN) numbers. *)
Definition js_max (a b : Q) : Q := if Qle_bool b a then a else b.
Definition js_min (a b : Q) : Q := if Qle_bool a b then a else b.

(* --------------------------------------------------------------------- *)
(*  types/index.ts                                                       *)
(* --------------------------------------------------------------------- *)

Inductive PositionType := LONG | SHORT.

Inductive UpdateType := stop_update | tp_update.

Record PositionUpdate := mkPositionUpdate {
  upd_timestamp : Z;
  upd_type : UpdateType;
  oldValue : Q;
  newValue : Q
}.

Record Position := mkPosition {
  ptype : PositionType;            (* Position.type *)
  entryPrice : Q;
  size : Q;
  contractAmount : Q;
  leverage : Q;
  stopLoss : Q;
  takeProfit : Q;
  entryTime : Z;
  orderId : option string;
  updates : list PositionUpdate
}.

Record EntrySignal := mkEntrySignal {
  stype : PositionType;            (* EntrySignal.type *)
  sprice : Q;                      (* EntrySignal.price *)
  ssize : Q;                       (* EntrySignal.size *)
  nextLevel : Q
}.

Inductive CloseReason := stopLossReason | takeProfitReason | manualReason.

Record TradeResult := mkTradeResult {
  tr_position : Position;
  exitPrice : Q;
  pnl : Q;
  tr_reason : CloseReason;
  exitTime : Z;
  isLoss : bool
}.

Record PriceLevel := mkPriceLevel { lvl_price : Q; lvl_time : Z }.

(** One list of levels per timeframe: '4h', '1h', '15m', '5m'. *)
Record TimeframeLevels := mkTimeframeLevels {
  tf4h : list PriceLevel;
  tf1h : list PriceLevel;
  tf15m : list PriceLevel;
  tf5m : list PriceLevel
}.

Record LevelAnalysis := mkLevelAnalysis {
  holdLevels : TimeframeLevels;
  resistanceLevels : TimeframeLevels
}.

(** Result of [checkExitConditions]: [{shouldClose; reason?}]. *)
Record ExitCheck := mkExitCheck {
  shouldClose : bool;
  exit_reason : option CloseReason
}.


(* --------------------------------------------------------------------- *)
(*  TradingStateManager (state.ts)                                       *)
(* --------------------------------------------------------------------- *)

(** The persisted aggregate, [TradingState] of types/index.ts. *)
Record TradingState := mkTradingState {
  currentPosition : option Position;
  currentStakePercentage : Q;
  accountBalance : option Q;
  lastLevels : option LevelAnalysis;
  lastUpdate : option Z
}.

(** The manager: its in-memory fields, and the successive contents written
    to the state file by [save()] (most recent first). *)
Record Store := mkStore {
  mem : TradingState;
  written : list TradingState
}.

Inductive TradeOutcome := WIN | LOSS.

(** The outcome of [fs.readFile(this.stateFile, 'utf8')]: the file's text,
    or an error carrying its [code] (['ENOENT'] when the file is missing). *)
Inductive ReadOutcome :=
| ReadOk (data : string)
| ReadErr (code : option string).

(** The outcome of [load()]: it resolves with the new manager, or rejects
    with an error whose [code] is given. *)
Inductive LoadResult :=
| Loaded (s : Store)
| Thrown (code : option string).

Module TradingStateManager.

Definition with_currentPosition (t : TradingState) (p : option Position) : TradingState :=
  mkTradingState p (currentStakePercentage t) (accountBalance t) (lastLevels t) (lastUpdate t).
Definition with_stake (t : TradingState) (v : Q) : TradingState :=
  mkTradingState (currentPosition t) v (accountBalance t) (lastLevels t) (lastUpdate t).
Definition with_balance (t : TradingState) (b : option Q) : TradingState :=
  mkTradingState (currentPosition t) (currentStakePercentage t) b (lastLevels t) (lastUpdate t).

(** constructor() *)
Definition init : Store :=
  mkStore (mkTradingState None 6.0 None None None) [].

(** save(): the whole aggregate is written to the state file; this is the
    manager once [fs.writeFile] has resolved.  A write that rejects, after
    which the file is as the failure left it and the fields set before the
    save stay set, is modelled by [Startup.writeThrough]. *)
Definition save (s : Store) : Store := mkStore (mem s) (mem s :: written s).

Section Load.
(** [JSON.parse] followed by the field reads of [load()]: [None] when it
    throws (a SyntaxError, which has no [code]). *)
Variable parse : string -> option TradingState.

Definition ENOENT : string := "ENOENT".

Definition load (r : ReadOutcome) (s : Store) : LoadResult :=
  match r with
  | ReadOk data =>
      match parse data with
      | Some state => Loaded (mkStore state (written s))
      | None => Thrown None
      end
  | ReadErr code =>
      match code with
      | Some c => if String.eqb c ENOENT then Loaded s else Thrown code
      | None => Thrown code
      end
  end.
End Load.

Definition getCurrentPosition (s : Store) : option Position := currentPosition (mem s).

Definition setCurrentPosition (position : Position) (s : Store) : Store :=
  save (mkStore (with_currentPosition (mem s) (Some position)) (written s)).

Definition clearCurrentPosition (s : Store) : Store :=
  save (mkStore (with_currentPosition (mem s) None) (written s)).

Definition updateAccountBalance (balance : Q) (s : Store) : Store :=
  save (mkStore (with_balance (mem s) (Some balance)) (written s)).

Definition getAccountBalance (s : Store) : option Q := accountBalance (mem s).

Definition getCurrentStakePercentage (s : Store) : Q := currentStakePercentage (mem s).

(** The stake update of [adjustStakePercentage], before the save. *)
Definition nextStake (tradeResult : TradeOutcome) (stake : Q) : Q :=
  match tradeResult with
  | WIN => js_min 16.0 (stake * 2)
  | LOSS => js_max 2 (stake / 2)
  end.

Definition adjustStakePercentage (tradeResult : TradeOutcome) (s : Store) : Store :=
  save (mkStore (with_stake (mem s) (nextStake tradeResult (currentStakePercentage (mem s))))
                (written s)).

Definition updateLevels (levels : LevelAnalysis) (now : Z) (s : Store) : Store :=
  save (mkStore (mkTradingState (currentPosition (mem s)) (currentStakePercentage (mem s))
                   (accountBalance (mem s)) (Some levels) (Some now)) (written s)).

Definition getLevels (s : Store) : option LevelAnalysis := lastLevels (mem s).

End TradingStateManager.

(** config/constants.ts (the current version, second in the sources). *)
Module TRADING_CONSTANTS.
Definition MIN_STAKE_PERCENTAGE : Q := 1.5.
Definition MAX_STAKE_PERCENTAGE : Q := 6.0.
Definition INITIAL_STAKE_PERCENTAGE : Q := 6.0.
Definition MAX_DAILY_LOSSES : Z := 3.
End TRADING_CONSTANTS.

(* --------------------------------------------------------------------- *)
(*  The exchange, seen from the PositionManager (types/exchange.ts)      *)
(* --------------------------------------------------------------------- *)

Inductive OrderType := MARKET | LIMIT.
Inductive OrderSide := BUY | SELL.

Record OrderParams := mkOrderParams {
  op_type : OrderType;
  op_side : OrderSide;
  amount : Q;
  op_price : option Q;
  op_leverage : option Q;
  reduceOnly : option bool
}.

(** The calls the PositionManager makes, in order, including the
    [setTimeout] delays it awaits between retries. *)
Inductive ExchangeCall :=
| CallGetOpenLimitOrders (side : OrderSide)
| CallFetchTicker
| CallCreateOrder (params : OrderParams)
| CallSleep (ms : Z).

(** The exchange's answer to each call, as a script consumed in order:
    a ticker's [last], a created order's [id] and [price], the number of
    open LIMIT orders, or a rejection (the call throws). *)
Inductive ExchangeReply :=
| RTicker (last : Q)
| ROrder (id : string) (price : Q)
| ROpenOrders (n : nat)
| RFail.

Record Env := mkEnv {
  replies : list ExchangeReply;
  calls : list ExchangeCall
}.

(** Asynchronous code that may throw: [None] is a rejected promise. *)
Definition Exec (A : Type) : Type := Env -> option A * Env.

Definition ret {A} (a : A) : Exec A := fun e => (Some a, e).
Definition throw {A} : Exec A := fun e => (None, e).
Definition bind {A B} (m : Exec A) (k : A -> Exec B) : Exec B :=
  fun e => match m e with
           | (Some a, e') => k a e'
           | (None, e') => (None, e')
           end.
Notation "x <- m ;; k" := (bind m (fun x => k)) (at level 61, m at next level, right associativity).

Definition record_call (c : ExchangeCall) (e : Env) : Env :=
  mkEnv (replies e) (calls e ++ [c]).

Definition next_reply (c : ExchangeCall) (e : Env) : option ExchangeReply * Env :=
  match replies e with
  | r :: rs => (Some r, mkEnv rs (calls e ++ [c]))
  | [] => (None, record_call c e)
  end.

Definition fetchTicker : Exec Q := fun e =>
  match next_reply CallFetchTicker e with
  | (Some (RTicker last), e') => (Some last, e')
  | (_, e') => (None, e')
  end.

Definition createOrder (params : OrderParams) : Exec (string * Q) := fun e =>
  match next_reply (CallCreateOrder params) e with
  | (Some (ROrder id price), e') => (Some (id, price), e')
  | (_, e') => (None, e')
  end.

Definition getOpenLimitOrders (side : OrderSide) : Exec nat := fun e =>
  match next_reply (CallGetOpenLimitOrders side) e with
  | (Some (ROpenOrders n), e') => (Some n, e')
  | (_, e') => (None, e')
  end.

(** [await new Promise(res => setTimeout(res, ms))] *)
Definition sleep (ms : Z) (e : Env) : Env := record_call (CallSleep ms) e.

Definition Qlt_bool (a b : Q) : bool := negb (Qle_bool b a).

(** [levels.sort((a, b) => a.price - b.price)]: a stable ascending sort. *)
Module PriceLevelOrder <: TotalLeBool'.
Definition t := PriceLevel.
Definition leb (a b : PriceLevel) : bool := Qle_bool (lvl_price a) (lvl_price b).
Lemma leb_total : forall a b, leb a b = true \/ leb b a = true.
Proof.
  intros a b; unfold leb.
  destruct (Qlt_le_dec (lvl_price a) (lvl_price b)) as [H|H].
  - left; apply Qle_bool_iff; lra.
  - right; apply Qle_bool_iff; lra.
Qed.
End PriceLevelOrder.

Module PriceLevelSort := Sort PriceLevelOrder.

(* --------------------------------------------------------------------- *)
(*  PositionManager: PositionManager (position.ts)                            *)
(* --------------------------------------------------------------------- *)

Module PositionManager.

Definition LEVERAGE : Q := 20.
Definition MIN_DISTANCE : Q := 0.001.


Definition calculateInitialStop (type : PositionType) (entryPrice : Q) : Q :=
  match type with
  | LONG => fixedNumber (entryPrice * 0.9984)
  | SHORT => fixedNumber (entryPrice * 1.00167)
  end.

Definition calculatePnL (position : Position) (exitPrice : Q) : Q :=
  match ptype position with
  | LONG => fixedNumber ((exitPrice - entryPrice position) * contractAmount position)
  | SHORT => fixedNumber ((entryPrice position - exitPrice) * contractAmount position)
  end.

Definition checkExitConditions (position : Position) (currentPrice : Q) : ExitCheck :=
  match ptype position with
  | LONG =>
      if Qle_bool currentPrice (stopLoss position) then mkExitCheck true (Some stopLossReason)
      else if Qle_bool (takeProfit position) currentPrice then mkExitCheck true (Some takeProfitReason)
      else mkExitCheck false None
  | SHORT =>
      if Qle_bool (stopLoss position) currentPrice then mkExitCheck true (Some stopLossReason)
      else if Qle_bool currentPrice (takeProfit position) then mkExitCheck true (Some takeProfitReason)
      else mkExitCheck false None
  end.

Definition stopDistance : Q := 0.0016.

Definition calculateTrailingStop (position : Position) (currentPrice : Q) : Q :=
  match ptype position with
  | LONG => js_max (currentPrice * (1 - stopDistance)) (stopLoss position)
  | SHORT => js_min (currentPrice * (1 + stopDistance)) (stopLoss position)
  end.


Definition MIN_AMOUNT : Q := 0.001.
Definition maxRetries : nat := 3.
Definition RETRY_DELAY : Z := 2000.

(* -- entry conditions ------------------------------------------------- *)

Inductive Direction := up | down.

(** [Math.abs(price - level) / level <= MIN_DISTANCE].  Dividing by a zero
    level gives Infinity or NaN in JavaScript, never [<= MIN_DISTANCE]. *)
Definition isLevelHit (price level : Q) : bool :=
  if Qeq_bool level 0 then false
  else Qle_bool (Qabs (price - level) / level) MIN_DISTANCE.

Definition findNextLevel (price : Q) (levels : list PriceLevel) (direction : Direction)
  : option PriceLevel :=
  let sortedLevels := PriceLevelSort.sort levels in
  match direction with
  | up => find (fun level => Qlt_bool price (lvl_price level)) sortedLevels
  | down => find (fun level => Qlt_bool (lvl_price level) price) (rev sortedLevels)
  end.

Definition calculatePositionSize (s : Store) (balance : option Q) : Q :=
  match balance with
  | None => 0
  | Some b =>
      if Qeq_bool b 0 then 0
      else fixedNumber (b * (TradingStateManager.getCurrentStakePercentage s / 100))
  end.

Definition createEntrySignal (s : Store) (type : PositionType) (price : Q) (next : PriceLevel)
  : EntrySignal :=
  let positionSize := calculatePositionSize s (TradingStateManager.getAccountBalance s) in
  mkEntrySignal type (fixedNumber price) (fixedNumber positionSize) (fixedNumber (lvl_price next)).

Definition flatten (t : TimeframeLevels) : list PriceLevel :=
  tf4h t ++ tf1h t ++ tf15m t ++ tf5m t.

(** The [for (const level of ...)] loops: the first level that is hit and
    for which a target exists returns its signal; otherwise continue. *)
Fixpoint scanLevels (price : Q) (try_level : PriceLevel -> option EntrySignal)
  (levels : list PriceLevel) : option EntrySignal :=
  match levels with
  | [] => None
  | level :: rest =>
      if isLevelHit price (lvl_price level)
      then match try_level level with
           | Some signal => Some signal
           | None => scanLevels price try_level rest
           end
      else scanLevels price try_level rest
  end.

Definition checkEntryConditions (s : Store) (price : Q) (levels : option LevelAnalysis)
  : option EntrySignal :=
  match levels with
  | None => None
  | Some la =>
      let allSupports := flatten (holdLevels la) in
      let allResistances := flatten (resistanceLevels la) in
      let tryLong := fun _ : PriceLevel =>
        match findNextLevel price allResistances up with
        | Some nextResistance => Some (createEntrySignal s LONG price nextResistance)
        | None => None
        end in
      let tryShort := fun _ : PriceLevel =>
        match findNextLevel price allSupports down with
        | Some nextSupport => Some (createEntrySignal s SHORT price nextSupport)
        | None => None
        end in
      match scanLevels price tryLong allSupports with
      | Some signal => Some signal
      | None => scanLevels price tryShort allResistances
      end
  end.

(* -- stop updates ----------------------------------------------------- *)

Definition updateStopLoss (now : Z) (newStop : Q) (s : Store) : Store :=
  match TradingStateManager.getCurrentPosition s with
  | None => s
  | Some position =>
      let position' :=
        mkPosition (ptype position) (entryPrice position) (size position)
          (contractAmount position) (leverage position) newStop (takeProfit position)
          (entryTime position) (orderId position)
          (updates position ++ [mkPositionUpdate now stop_update (stopLoss position) newStop]) in
      TradingStateManager.setCurrentPosition position' s
  end.

(* -- opening ---------------------------------------------------------- *)

Definition orderSideOf (type : PositionType) : OrderSide :=
  match type with LONG => BUY | SHORT => SELL end.

Definition buildPosition (entry : EntrySignal) (sz amt : Q) (now : Z) (id : string) : Position :=
  mkPosition (stype entry) (sprice entry) sz amt LEVERAGE
    (calculateInitialStop (stype entry) (sprice entry)) (nextLevel entry) now (Some id) [].

(** [openPosition(entry)].  [hasGetOpenLimitOrders] tells whether the
    connector implements [getOpenLimitOrders] (the [typeof ... === 'function']
    test).  The exchange's [last] price is taken to be non-zero: JavaScript
    would divide by zero into Infinity where Q gives 0. *)
Definition openPosition (hasGetOpenLimitOrders : bool) (now : Z) (entry : EntrySignal)
  : Exec Position :=
  let orderSide := orderSideOf (stype entry) in
  _ <- (if hasGetOpenLimitOrders
        then n <- getOpenLimitOrders orderSide ;;
             if Nat.leb 4 n then throw else ret tt
        else ret tt) ;;
  last <- fetchTicker ;;
  let lastPrice := fixedNumber last in
  let contractAmount := fixedNumber (ssize entry / lastPrice) in
  if Qlt_bool contractAmount MIN_AMOUNT
  then
    let adjustedContractAmount := MIN_AMOUNT in
    order <- createOrder (mkOrderParams LIMIT orderSide adjustedContractAmount
                            (Some (sprice entry)) (Some LEVERAGE) None) ;;
    ret (buildPosition entry (fixedNumber (adjustedContractAmount * sprice entry))
           adjustedContractAmount now (fst order))
  else
    order <- createOrder (mkOrderParams LIMIT orderSide contractAmount
                            (Some (sprice entry)) (Some LEVERAGE) None) ;;
    ret (buildPosition entry (ssize entry) contractAmount now (fst order)).

(* -- closing ---------------------------------------------------------- *)

Definition closeSide (position : Position) : OrderSide :=
  match ptype position with LONG => SELL | SHORT => BUY end.

(** The limit price of a close: slightly through the current price. *)
Definition closeLimitPrice (position : Position) (currentPrice : Q) : Q :=
  match ptype position with
  | LONG => fixedNumber (currentPrice * 0.9995)
  | SHORT => fixedNumber (currentPrice * 1.0005)
  end.

Definition limitCloseParams (position : Position) (currentPrice : Q) : OrderParams :=
  mkOrderParams LIMIT (closeSide position) (contractAmount position)
    (Some (closeLimitPrice position currentPrice)) None (Some true).

Definition marketCloseParams (position : Position) : OrderParams :=
  mkOrderParams MARKET (closeSide position) (contractAmount position) None None (Some true).

(** The body of the [try] of one LIMIT attempt; its result is the exit
    price, [None] when it throws (the [catch] swallows it). *)
Definition limitAttempt (position : Position) : Exec Q :=
  last <- fetchTicker ;;
  let currentPrice := fixedNumber last in
  closeOrder <- createOrder (limitCloseParams position currentPrice) ;;
  ret (fixedNumber (snd closeOrder)).

(** [while (!closed && attempt < maxRetries) { attempt++; try ... catch ... }]:
    [Some exitPrice] once closed, [None] when every attempt failed. *)
Fixpoint limitLoop (fuel attempt : nat) (position : Position) (e : Env) : option Q * Env :=
  match fuel with
  | O => (None, e)
  | S fuel' =>
      if Nat.ltb attempt maxRetries then
        let attempt := S attempt in
        match limitAttempt position e with
        | (Some exitPrice, e') => (Some exitPrice, e')
        | (None, e') =>
            let e'' := if Nat.ltb attempt maxRetries then sleep RETRY_DELAY e' else e' in
            limitLoop fuel' attempt position e''
        end
      else (None, e)
  end.

(** [while (!closed) { try MARKET ... catch { sleep } }]: the loop has no
    bound; [fuel] only cuts its unfolding, and [None] means that no MARKET
    order has succeeded within [fuel] iterations (the loop goes on). *)
Fixpoint marketLoop (fuel : nat) (position : Position) (e : Env) : option Q * Env :=
  match fuel with
  | O => (None, e)
  | S fuel' =>
      match createOrder (marketCloseParams position) e with
      | (Some closeOrder, e') => (Some (fixedNumber (snd closeOrder)), e')
      | (None, e') => marketLoop fuel' position (sleep RETRY_DELAY e')
      end
  end.

Definition mkCloseResult (position : Position) (reason : CloseReason) (now : Z) (exitPrice : Q)
  : TradeResult :=
  let pnl := calculatePnL position exitPrice in
  mkTradeResult position exitPrice pnl reason now (Qlt_bool pnl 0).

(** [closePosition(position, reason)]; [None] when the MARKET loop is still
    running after [fuel] iterations. *)
Definition closePosition (fuel : nat) (position : Position) (reason : CloseReason) (now : Z)
  (e : Env) : option TradeResult * Env :=
  match limitLoop maxRetries 0 position e with
  | (Some exitPrice, e') => (Some (mkCloseResult position reason now exitPrice), e')
  | (None, e') =>
      match marketLoop fuel position e' with
      | (Some exitPrice, e'') => (Some (mkCloseResult position reason now exitPrice), e'')
      | (None, e'') => (None, e'')
      end
  end.

End PositionManager.

(* --------------------------------------------------------------------- *)
(*  RiskManager (risk.ts)                                                *)
(* --------------------------------------------------------------------- *)

(** Calendar days are numbered: [DateTime.now().startOf('day')] is [today]
    and [a.hasSame(b, 'day')] is [a = b]. *)
Record RiskState := mkRiskState {
  dailyLosses : Z;
  lastLossDate : option Z;
  initialBalance : option Q
}.

Module RiskManager.

Definition init : RiskState := mkRiskState 0 None None.

Definition handleLoss (today : Z) (r : RiskState) : RiskState :=
  let losses :=
    match lastLossDate r with
    | Some d => if Z.eqb d today then (dailyLosses r + 1)%Z else 1%Z
    | None => 1%Z
    end in
  mkRiskState losses (Some today) (initialBalance r).

Definition canOpenPosition (maxDailyLosses : Z) (today : Z) (r : RiskState) : bool * RiskState :=
  if Z.leb maxDailyLosses (dailyLosses r) then (false, r)
  else
    match lastLossDate r with
    | Some d => if Z.eqb d today then (true, r) else (true, mkRiskState 0 None (initialBalance r))
    | None => (true, r)
    end.

(** [initialize(balance)]: the baseline of the drawdown check. *)
Definition initialize (balance : Q) (r : RiskState) : RiskState :=
  mkRiskState (dailyLosses r) (lastLossDate r) (Some balance).

(** [checkDrawdown(currentBalance)]; [!this.initialBalance] holds for a
    missing and for a zero baseline. *)
Definition checkDrawdown (maxDrawdown : Q) (currentBalance : Q) (r : RiskState) : bool :=
  match initialBalance r with
  | None => true
  | Some b =>
      if Qeq_bool b 0 then true
      else
        let drawdown := (b - currentBalance) / b in
        Qle_bool drawdown maxDrawdown
  end.

End RiskManager.

(* --------------------------------------------------------------------- *)
(*  TradingEngine: start / stop and the level-refresh timer (engine.ts)  *)
(* --------------------------------------------------------------------- *)

(** The part of the engine the lifecycle touches: its [isRunning] and
    [isOpeningPosition] flags, whether the exchange's price stream is up,
    the number of [setInterval] timers scheduled by [scheduleLevelUpdates]
    (their handles are not kept), and the number of level refreshes
    ([updateLevels]) initiated. *)
Record EngineState := mkEngineState {
  isRunning : bool;
  isOpeningPosition : bool;
  streamActive : bool;
  levelTimers : nat;
  levelRefreshes : nat
}.

Module TradingEngine.

Definition init : EngineState := mkEngineState false false false 0 0.

(** [start()] when every step succeeds: [loadInitialState] refreshes the
    levels once, then the stream starts and one more interval timer is
    scheduled. *)
Definition start (e : EngineState) : EngineState :=
  if isRunning e then e
  else mkEngineState true (isOpeningPosition e) true (S (levelTimers e)) (S (levelRefreshes e)).

(** [stop()]; [streamStopOk] is the outcome of [exchange.stopPriceStream()].
    The boolean result tells whether [stop()] rejects. *)
Definition stop (streamStopOk : bool) (e : EngineState) : bool * EngineState :=
  if negb (isRunning e) then (false, e)
  else
    let e1 := mkEngineState false false (streamActive e) (levelTimers e) (levelRefreshes e) in
    if streamStopOk
    then (false, mkEngineState false false false (levelTimers e1) (levelRefreshes e1))
    else (true, e1).

(** One firing of a scheduled level-update interval:
    [if (!this.isRunning) return; await this.updateLevels();]. *)
Definition levelTimerFires (e : EngineState) : EngineState :=
  match levelTimers e with
  | O => e
  | S _ =>
      if negb (isRunning e) then e
      else mkEngineState (isRunning e) (isOpeningPosition e) (streamActive e)
             (levelTimers e) (S (levelRefreshes e))
  end.

Inductive EngineEvent := EvStart | EvStop (streamStopOk : bool) | EvLevelTimer.

Definition step (e : EngineState) (ev : EngineEvent) : EngineState :=
  match ev with
  | EvStart => start e
  | EvStop ok => snd (stop ok e)
  | EvLevelTimer => levelTimerFires e
  end.

Definition run (e : EngineState) (evs : list EngineEvent) : EngineState := fold_left step evs e.

End TradingEngine.

(* --------------------------------------------------------------------- *)
(*  Start-up: runTradingBot (index.ts), TradingBot.start (part_001),     *)
(*  TradingEngine.start (engine.ts)                                      *)
(* --------------------------------------------------------------------- *)

(** The state file on disk as [load()] finds it: missing, unreadable with
    an error [code], holding some text, or holding what [save()] last wrote
    ([JSON.stringify] of an aggregate, which [JSON.parse] and the field
    reads of [load()] give back unchanged). *)
Inductive StateFile :=
| NoFile
| FileError (code : string)
| FileText (data : string)
| FileSaved (t : TradingState).

(** The outcome of one [fs.writeFile] of the state file: it resolves, or it
    rejects and leaves the file as given. *)
Inductive WriteOutcome :=
| WriteOk
| WriteFailed (after : StateFile).

(** What the outside world answers during start-up, in the order the code
    asks: [createDirectories] of [bot.initialize()],
    [exchange.initialize()], [exchange.fetchBalance()] (the number
    [balance.total?.USDT || balance.free?.USDT || 0], or [None] when it
    rejects), the write of [updateAccountBalance],
    [levelAnalyzer.analyzeLevels] ([None] when it rejects), the write of
    [state.updateLevels], [exchange.startPriceStream], and, when a running
    engine is stopped again, [exchange.stopPriceStream] and the write of
    [stop()]'s [state.save()]. *)
Record StartEnv := mkStartEnv {
  dirsOk : bool;
  initOk : bool;
  fetchedBalance : option Q;
  balanceWrite : WriteOutcome;
  analyzed : option LevelAnalysis;
  levelsWrite : WriteOutcome;
  streamOk : bool;
  stopStreamOk : bool;
  stopWrite : WriteOutcome
}.

Module Startup.
Import TradingStateManager.

Section Startup.
Variable parse : string -> option TradingState.
Variable senv : StartEnv.
(** The time [DateTime.now()] reads in [state.updateLevels]. *)
Variable now : Z.

(** [load()] on the file as it is. *)
Definition loadFile (f : StateFile) (s : Store) : LoadResult :=
  match f with
  | NoFile => load parse (ReadErr (Some ENOENT)) s
  | FileError c => load parse (ReadErr (Some c)) s
  | FileText d => load parse (ReadOk d) s
  | FileSaved t => Loaded (mkStore t (written s))
  end.

(** A mutator of the manager followed by [await this.save()]: the fields
    are set in memory first, then the file is written.  The boolean tells
    whether the write rejects. *)
Definition writeThrough (t : TradingState) (w : WriteOutcome) (s : Store) (f : StateFile)
  : bool * Store * StateFile :=
  match w with
  | WriteOk => (false, save (mkStore t (written s)), FileSaved t)
  | WriteFailed after => (true, mkStore t (written s), after)
  end.

(** The balance step of [start()]: [updateAccountBalance(usdtBalance)]; a
    rejection of [fetchBalance] or of the write is caught and logged. *)
Definition refreshBalance (s : Store) (f : StateFile) : Store * StateFile :=
  match fetchedBalance senv with
  | None => (s, f)
  | Some usdt =>
      let '(_, s1, f1) := writeThrough (with_balance (mem s) (Some usdt)) (balanceWrite senv) s f in
      (s1, f1)
  end.

(** The engine's [updateLevels()] called by [loadInitialState()].  A
    rejection is caught and emitted as ['error']; the engine's listener
    (set up by [TradingBot.setupEventHandlers]) re-emits it on the bot,
    which has no ['error'] listener, so that [emit] throws out of the catch
    block and [updateLevels()] rejects.  The boolean tells whether it
    rejects. *)
Definition engineUpdateLevels (s : Store) (f : StateFile) : bool * Store * StateFile :=
  match analyzed senv with
  | None => (true, s, f)
  | Some levels =>
      writeThrough (mkTradingState (currentPosition (mem s)) (currentStakePercentage (mem s))
                      (accountBalance (mem s)) (Some levels) (Some now))
        (levelsWrite senv) s f
  end.

(** [engine.stop()] called by [bot.stop()], which swallows its rejection;
    [state.save()] runs once the stream is stopped. *)
Definition engineStop (e : EngineState) (s : Store) (f : StateFile) : EngineState * Store * StateFile :=
  if negb (isRunning e) then (e, s, f)
  else
    let e' := snd (TradingEngine.stop (stopStreamOk senv) e) in
    if stopStreamOk senv then
      let '(_, s1, f1) := writeThrough (mem s) (stopWrite senv) s f in (e', s1, f1)
    else (e', s, f).

(** [engine.start()]; the boolean tells whether it rejects.  A rejection
    inside its [try] is caught, emitted as ['error'] (which throws again,
    see [engineUpdateLevels]) and rethrown: [start()] rejects either way.
    [loadInitialState()] is [state.load()] followed by [updateLevels()];
    [isRunning] is set before the price stream is started. *)
Definition start (e : EngineState) (s : Store) (f : StateFile) : bool * EngineState * Store * StateFile :=
  if isRunning e then (false, e, s, f)
  else if negb (initOk senv) then (true, e, s, f)
  else
    let '(s1, f1) := refreshBalance s f in
    match loadFile f1 s1 with
    | Thrown _ => (true, e, s1, f1)
    | Loaded s2 =>
        let '(levelsFailed, s3, f3) := engineUpdateLevels s2 f1 in
        if levelsFailed then
          (true, mkEngineState false (isOpeningPosition e) (streamActive e) (levelTimers e)
                   (S (levelRefreshes e)), s3, f3)
        else if streamOk senv then (false, TradingEngine.start e, s3, f3)
        else
          (true, mkEngineState true (isOpeningPosition e) (streamActive e) (levelTimers e)
                   (S (levelRefreshes e)), s3, f3)
    end.

(** [runTradingBot()] of index.ts until [bot.start()] settles.
    [bot.initialize()] builds a fresh engine and a fresh manager (when
    [createDirectories] fails it resolves [false] and the process exits
    with 1 before any engine exists; [TradingEngine.init] and
    [TradingStateManager.init] stand for the untouched objects).  When
    [bot.start()] rejects, its catch block awaits [bot.stop()], then
    [runTradingBot] awaits [bot.stop()] again and calls [process.exit(1)].
    The result is the exit code ([None] while the process keeps running),
    and the engine, the manager and the state file at that point. *)
Definition runTradingBot (f : StateFile) : option Z * EngineState * Store * StateFile :=
  if negb (dirsOk senv) then (Some 1%Z, TradingEngine.init, TradingStateManager.init, f)
  else
    let '(rejected, e, s, f1) := start TradingEngine.init TradingStateManager.init f in
    if rejected then
      let '(e2, s2, f2) := engineStop e s f1 in
      let '(e3, s3, f3) := engineStop e2 s2 f2 in
      (Some 1%Z, e3, s3, f3)
    else (None, e, s, f1).

End Startup.
End Startup.

(* --------------------------------------------------------------------- *)
(*  TradingEngine: price ticks (engine.ts, handlePriceUpdate and the     *)
(*  private methods it calls)                                            *)
(* --------------------------------------------------------------------- *)

(** The events the engine emits while it handles a price. *)
Inductive EngineEmit :=
| EmPositionOpened (position : Position)
| EmPositionClosed (result : TradeResult)
| EmStopLossUpdated (newStop : Q)
| EmError.

(** The engine with the objects it owns: its flags, the state manager, the
    risk manager, the exchange (replies and call log) and the emitted
    events (oldest first). *)
Record Bot := mkBot {
  engine : EngineState;
  store : Store;
  risk : RiskState;
  env : Env;
  emitted : list EngineEmit
}.

(** One price update: its price, the time [new Date()] reads while it is
    handled, and the calendar day [DateTime.now().startOf('day')] reads. *)
Record Tick := mkTick { t_price : Q; t_now : Z; t_today : Z }.

Module TradingEngineTicks.
Import PositionManager TradingStateManager.

Section Ticks.
(** Whether the connector has [getOpenLimitOrders], the configured
    [maxDailyLosses], and the number of MARKET iterations of a close that
    are unfolded (see [PositionManager.marketLoop]). *)
Variable hasGetOpenLimitOrders : bool.
Variable maxDailyLosses : Z.
Variable fuel : nat.

Definition with_store (b : Bot) (s : Store) : Bot :=
  mkBot (engine b) s (risk b) (env b) (emitted b).
Definition with_risk (b : Bot) (r : RiskState) : Bot :=
  mkBot (engine b) (store b) r (env b) (emitted b).
Definition with_opening (b : Bot) (flag : bool) : Bot :=
  let e := engine b in
  mkBot (mkEngineState (isRunning e) flag (streamActive e) (levelTimers e) (levelRefreshes e))
    (store b) (risk b) (env b) (emitted b).

(** [closePosition(reason)].  [PositionManager.closePosition] never throws;
    when its MARKET loop is still running after [fuel] iterations the
    engine is left waiting, with nothing cleared or emitted. *)
Definition closePosition (tk : Tick) (reason : CloseReason) (b : Bot) : Bot :=
  match getCurrentPosition (store b) with
  | None => b
  | Some currentPosition =>
      match PositionManager.closePosition fuel currentPosition reason (t_now tk) (env b) with
      | (Some result, env') =>
          mkBot (engine b) (clearCurrentPosition (store b))
            (if isLoss result then RiskManager.handleLoss (t_today tk) (risk b) else risk b)
            env' (emitted b ++ [EmPositionClosed result])
      | (None, env') => mkBot (engine b) (store b) (risk b) env' (emitted b)
      end
  end.

(** [updateTrailingStop(position, price)]: [newStop !== position.stopLoss]
    compares the numbers. *)
Definition updateTrailingStop (tk : Tick) (position : Position) (b : Bot) : Bot :=
  let newStop := calculateTrailingStop position (t_price tk) in
  if Qeq_bool newStop (stopLoss position) then b
  else mkBot (engine b) (updateStopLoss (t_now tk) newStop (store b)) (risk b) (env b)
         (emitted b ++ [EmStopLossUpdated newStop]).

Definition handleExistingPosition (tk : Tick) (position : Position) (b : Bot) : Bot :=
  let r := checkExitConditions position (t_price tk) in
  match shouldClose r, exit_reason r with
  | true, Some reason => closePosition tk reason b
  | _, _ => updateTrailingStop tk position b
  end.

(** [openPosition(entry)]: the flag is raised, the position double-checked,
    and the flag cleared in the [finally] block; a rejection of
    [PositionManager.openPosition] is caught and emitted as an error. *)
Definition openPosition (tk : Tick) (entry : EntrySignal) (b : Bot) : Bot :=
  let b1 := with_opening b true in
  let b2 :=
    match getCurrentPosition (store b1) with
    | Some _ => b1
    | None =>
        match PositionManager.openPosition hasGetOpenLimitOrders (t_now tk) entry (env b1) with
        | (Some position, env') =>
            mkBot (engine b1) (setCurrentPosition position (store b1)) (risk b1) env'
              (emitted b1 ++ [EmPositionOpened position])
        | (None, env') => mkBot (engine b1) (store b1) (risk b1) env' (emitted b1 ++ [EmError])
        end
    end in
  with_opening b2 false.

Definition checkForNewPosition (tk : Tick) (b : Bot) : Bot :=
  match getCurrentPosition (store b) with
  | Some _ => b
  | None =>
      if isOpeningPosition (engine b) then b
      else
        let (ok, r') := RiskManager.canOpenPosition maxDailyLosses (t_today tk) (risk b) in
        let b := with_risk b r' in
        if negb ok then b
        else
          match checkEntryConditions (store b) (t_price tk) (getLevels (store b)) with
          | None => b
          | Some entry => openPosition tk entry b
          end
  end.

Definition handlePriceUpdate (tk : Tick) (b : Bot) : Bot :=
  if negb (isRunning (engine b)) then b
  else
    match getCurrentPosition (store b) with
    | Some currentPosition => handleExistingPosition tk currentPosition b
    | None => checkForNewPosition tk b
    end.

(** The price updates of a stream, handled one after the other. *)
Definition runTicks (ticks : list Tick) (b : Bot) : Bot :=
  fold_left (fun b tk => handlePriceUpdate tk b) ticks b.

End Ticks.

End TradingEngineTicks.

(* --------------------------------------------------------------------- *)
(*  The price-stream connectors: reconnection (exchange/binance.ts,      *)
(*  exchange/mexc.ts) and the open LIMIT order query of the Binance      *)
(*  connector                                                            *)
(* --------------------------------------------------------------------- *)

(** What a connector does in answer to a socket event: [EffSleep] is the
    awaited (or [setTimeout]) delay before a new socket is created by
    [EffNewSocket]; [EffMaxReached] is the 'Maximum reconnection attempts
    reached' error; [EffSocketError] the re-emitted socket error.  The
    Binance connector emits both errors on its private [wsEmitter], which
    has no 'error' listener: [emit('error', ...)] throws there, so the code
    after it in the same handler does not run. *)
Inductive ConnEffect :=
| EffConnected
| EffSleep (ms : Z)
| EffNewSocket
| EffSocketError
| EffMaxReached.

(** The events of the socket in use, and [stopPriceStream()]. *)
Inductive ConnEvent := WsOpen | WsClose | WsError | StopStream.

Module BinanceConnector.

Definition maxReconnectAttempts : nat := 5.

Record Conn := mkConn {
  ws : bool;                       (* this.ws !== null *)
  pingInterval : bool;             (* this.pingInterval !== null *)
  reconnectAttempts : nat
}.

Definition init : Conn := mkConn false false 0.

(** [startPriceStream]: a new socket replaces [this.ws]. *)
Definition startPriceStream (c : Conn) : Conn * list ConnEffect :=
  (mkConn true (pingInterval c) (reconnectAttempts c), [EffNewSocket]).

Definition clearPingInterval (c : Conn) : Conn := mkConn (ws c) false (reconnectAttempts c).

(** [Math.min(1000 * Math.pow(2, this.reconnectAttempts - 1), 30000)] *)
Definition reconnectDelay (attempts : nat) : Z :=
  Z.min (1000 * 2 ^ (Z.of_nat attempts - 1)) 30000.

Definition handleDisconnect (c : Conn) : Conn * list ConnEffect :=
  let c := clearPingInterval c in
  if Nat.ltb (reconnectAttempts c) maxReconnectAttempts then
    let c := mkConn (ws c) (pingInterval c) (S (reconnectAttempts c)) in
    let delay := reconnectDelay (reconnectAttempts c) in
    let (c', effs) := startPriceStream c in
    (c', EffSleep delay :: effs)
  else (c, [EffMaxReached]).

Definition stopPriceStream (c : Conn) : Conn :=
  if ws c then mkConn false false (reconnectAttempts c) else c.

(** The handlers installed by [startPriceStream], and [stopPriceStream()].
    The 'error' handler stops at [this.wsEmitter.emit('error', error)],
    which throws for want of a listener: its [handleDisconnect] is never
    reached.  [run] keeps taking events after such a throw, so a statement
    over every event sequence also covers runs the program cannot make. *)
Definition step (c : Conn) (ev : ConnEvent) : Conn * list ConnEffect :=
  match ev with
  | WsOpen => (mkConn (ws c) true 0, [EffConnected])
  | WsClose => handleDisconnect (clearPingInterval c)
  | WsError => (c, [EffSocketError])
  | StopStream => (stopPriceStream c, [])
  end.

Fixpoint run (c : Conn) (evs : list ConnEvent) : Conn * list ConnEffect :=
  match evs with
  | [] => (c, [])
  | ev :: rest =>
      let (c1, effs1) := step c ev in
      let (c2, effs2) := run c1 rest in
      (c2, effs1 ++ effs2)
  end.

(** An order as [fetchOpenOrders] reports it (the fields read). *)
Record CcxtOrder := mkCcxtOrder {
  co_id : string;
  co_price : Q;
  co_type : string;
  co_side : string;
  co_status : string;
  co_amount : Q
}.

(** The [Order] returned (the symbol, the same for all, left out). *)
Record Order := mkOrder {
  o_id : string;
  o_price : Q;
  o_type : string;
  o_side : string;
  o_amount : Q
}.

(** [getOpenLimitOrders(symbol, side)]; [None] is a rejected
    [fetchOpenOrders], which the [catch] turns into [[]]. *)
Definition getOpenLimitOrders (fetched : option (list CcxtOrder)) (side : string) : list Order :=
  match fetched with
  | None => []
  | Some openOrders =>
      let limitOrders :=
        filter (fun order => String.eqb (co_type order) "limit" && String.eqb (co_side order) side
                             && String.eqb (co_status order) "open") openOrders in
      map (fun order => mkOrder (co_id order) (co_price order) (co_type order) (co_side order)
                          (co_amount order)) limitOrders
  end.

End BinanceConnector.

Module MEXCConnector.

Definition maxReconnectAttempts : nat := 5.
Definition reconnectDelay : Z := 1000.

(** [attemptReconnect]: the new attempt count, and the effects. *)
Definition attemptReconnect (reconnectAttempts : nat) : nat * list ConnEffect :=
  if Nat.leb maxReconnectAttempts reconnectAttempts then (reconnectAttempts, [EffMaxReached])
  else
    let reconnectAttempts := S reconnectAttempts in
    let delay := Z.min (reconnectDelay * 2 ^ (Z.of_nat reconnectAttempts - 1)) 30000 in
    (reconnectAttempts, [EffSleep delay; EffNewSocket]).

End MEXCConnector.

(* ===================================================================== *)
(*  Proofs                                                               *)
(* ===================================================================== *)

Lemma Qlt_bool_iff (a b : Q) : Qlt_bool a b = true <-> a < b.
Proof.
  unfold Qlt_bool; rewrite negb_true_iff; split; intro H.
  - destruct (Qlt_le_dec a b) as [Hlt|Hle]; [exact Hlt|].
    apply Qle_bool_iff in Hle; congruence.
  - destruct (Qle_bool b a) eqn:E; [|reflexivity].
    apply Qle_bool_iff in E; lra.
Qed.

(** Case analysis on a boolean comparison of rationals, keeping the fact. *)
Ltac qcase_bool :=
  match goal with
  | |- context [Qle_bool ?a ?b] =>
      let E := fresh "E" in
      destruct (Qle_bool a b) eqn:E;
      [apply Qle_bool_iff in E
      | assert (b < a) by (apply Qnot_le_lt; intro; rewrite <- Qle_bool_iff in *; congruence)]
  end.

Module ExitProofs.
Import PositionManager.

(** C4: on a LONG position [checkExitConditions] reports [stopLoss] exactly
    when the price is at or below the stop, [takeProfit] exactly when the
    price is above the stop and at or above the take-profit (the stop is
    tested first), and no close otherwise; a SHORT position mirrors the
    inequalities.  A LONG position opened at 100 has its stop at 99.84 and
    at price 99.80 the check answers [{shouldClose: true, reason: stopLoss}]. *)
Theorem checkExitConditions_spec :
  (forall (p : Position) (price : Q),
    let r := checkExitConditions p price in
    match ptype p with
    | LONG =>
        (r = mkExitCheck true (Some stopLossReason) <-> price <= stopLoss p) /\
        (r = mkExitCheck true (Some takeProfitReason) <->
           stopLoss p < price /\ takeProfit p <= price) /\
        (r = mkExitCheck false None <-> stopLoss p < price /\ price < takeProfit p)
    | SHORT =>
        (r = mkExitCheck true (Some stopLossReason) <-> stopLoss p <= price) /\
        (r = mkExitCheck true (Some takeProfitReason) <->
           price < stopLoss p /\ price <= takeProfit p) /\
        (r = mkExitCheck false None <-> price < stopLoss p /\ takeProfit p < price)
    end) /\
  (match fst (openPosition false 0 (mkEntrySignal LONG 100 200 102)
                (mkEnv [RTicker 100; ROrder "1" 100] [])) with
   | Some p =>
       ptype p = LONG /\ entryPrice p = 100 /\ stopLoss p == 99.84 /\
       checkExitConditions p 99.80 = mkExitCheck true (Some stopLossReason)
   | None => False
   end).
Proof.
  split.
  - intros p price; cbv zeta; unfold checkExitConditions.
    destruct (ptype p).
    + repeat qcase_bool; repeat split; intros;
        repeat match goal with H : _ /\ _ |- _ => destruct H end;
        try discriminate; try reflexivity; lra.
    + repeat qcase_bool; repeat split; intros;
        repeat match goal with H : _ /\ _ |- _ => destruct H end;
        try discriminate; try reflexivity; lra.
  - vm_compute. repeat split; reflexivity.
Qed.

End ExitProofs.

Module TrailingProofs.
Import PositionManager.

Lemma js_max_spec (a b : Q) : a <= js_max a b /\ b <= js_max a b /\ (js_max a b = a \/ js_max a b = b).
Proof. unfold js_max; qcase_bool; repeat split; auto; lra. Qed.

Lemma js_min_spec (a b : Q) : js_min a b <= a /\ js_min a b <= b /\ (js_min a b = a \/ js_min a b = b).
Proof. unfold js_min; qcase_bool; repeat split; auto; lra. Qed.

(** C6: the trailing stop never loosens.  For a LONG position the result is
    the larger of [price * (1 - 0.0016)] and the current stop (so at least
    the current stop); for a SHORT position it is the smaller of
    [price * (1 + 0.0016)] and the current stop (so at most the current
    stop).  With the stop at 99.84 and price 105 the LONG result is 104.832. *)
Theorem calculateTrailingStop_never_loosens :
  (forall (p : Position) (price : Q),
    let r := calculateTrailingStop p price in
    match ptype p with
    | LONG =>
        stopLoss p <= r /\ price * (1 - 0.0016) <= r /\
        (r = price * (1 - 0.0016) \/ r = stopLoss p)
    | SHORT =>
        r <= stopLoss p /\ r <= price * (1 + 0.0016) /\
        (r = price * (1 + 0.0016) \/ r = stopLoss p)
    end) /\
  calculateTrailingStop (mkPosition LONG 100 200 2 20 99.84 102 0 None []) 105 == 104.832.
Proof.
  split.
  - intros p price; cbv zeta; unfold calculateTrailingStop, stopDistance.
    destruct (ptype p).
    + destruct (js_max_spec (price * (1 - 0.0016)) (stopLoss p)) as (H1 & H2 & H3).
      repeat split; assumption.
    + destruct (js_min_spec (price * (1 + 0.0016)) (stopLoss p)) as (H1 & H2 & H3).
      repeat split; assumption.
  - vm_compute; reflexivity.
Qed.

End TrailingProofs.

Module StakeProofs.
Import TradingStateManager.

Definition applyOutcomes (outcomes : list TradeOutcome) (s : Store) : Store :=
  fold_left (fun s o => adjustStakePercentage o s) outcomes s.

Lemma nextStake_bounds (o : TradeOutcome) (stake : Q) :
  2 <= stake <= 16 -> 2 <= nextStake o stake <= 16.
Proof.
  intros [H1 H2]; destruct o; unfold nextStake, js_min, js_max;
    [| unfold Qdiv; change (/ 2) with (1 # 2)]; qcase_bool; lra.
Qed.

Lemma applyOutcomes_bounds (outcomes : list TradeOutcome) (s : Store) :
  2 <= currentStakePercentage (mem s) <= 16 ->
  2 <= currentStakePercentage (mem (applyOutcomes outcomes s)) <= 16.
Proof.
  revert s; induction outcomes as [|o rest IH]; intros s H; simpl; [exact H|].
  apply IH; simpl; apply nextStake_bounds; exact H.
Qed.

(** C7 (as amended): starting from the constructor's stake of 6.0, every
    sequence of WIN/LOSS outcomes applied by [adjustStakePercentage] keeps
    [currentStakePercentage] within [2, 16], the bounds written in
    [adjustStakePercentage]. *)
Theorem stake_within_hardcoded_bounds :
  forall outcomes : list TradeOutcome,
    2 <= currentStakePercentage (mem (applyOutcomes outcomes init)) <= 16.
Proof.
  intro outcomes; apply applyOutcomes_bounds; simpl; split; lra.
Qed.

(** C7, the claim as stated: the configured bounds are
    [MIN_STAKE_PERCENTAGE = 1.5] and [MAX_STAKE_PERCENTAGE = 6.0]; a single
    WIN from the initial stake of 6.0 doubles it to 12, above the maximum. *)
Lemma stake_exceeds_configured_max :
  currentStakePercentage (mem (applyOutcomes [WIN] init)) == 12 /\
  TRADING_CONSTANTS.MAX_STAKE_PERCENTAGE < currentStakePercentage (mem (applyOutcomes [WIN] init)).
Proof. vm_compute; split; reflexivity. Qed.

End StakeProofs.

Module StopUpdateProofs.
Import PositionManager TradingStateManager.

(** C10: with no stored position, [updateStopLoss] leaves the manager
    exactly as it was (no record, no save).  With a stored position it
    stores the position with [stopLoss] replaced by the new stop and exactly
    one [stop_update] record, from the old stop to the new one, appended to
    [updates]; every other field of the position and of the trading state is
    unchanged, and the new state is written once to the state file. *)
Theorem updateStopLoss_frame :
  forall (now : Z) (newStop : Q) (s : Store),
    let s' := updateStopLoss now newStop s in
    match currentPosition (mem s) with
    | None => s' = s
    | Some p =>
        exists p',
          mem s' = mkTradingState (Some p') (currentStakePercentage (mem s))
                     (accountBalance (mem s)) (lastLevels (mem s)) (lastUpdate (mem s)) /\
          written s' = mem s' :: written s /\
          updates p' = updates p ++ [mkPositionUpdate now stop_update (stopLoss p) newStop] /\
          stopLoss p' = newStop /\
          ptype p' = ptype p /\ entryPrice p' = entryPrice p /\ size p' = size p /\
          contractAmount p' = contractAmount p /\ leverage p' = leverage p /\
          takeProfit p' = takeProfit p /\ entryTime p' = entryTime p /\
          orderId p' = orderId p
    end.
Proof.
  intros now newStop [[cp st bal lv lu] w]; cbv zeta.
  unfold updateStopLoss, getCurrentPosition; simpl.
  destruct cp as [p|]; [|reflexivity].
  eexists; repeat split; reflexivity.
Qed.

End StopUpdateProofs.

Module LoadProofs.
Import TradingStateManager.

(** A start-up in which nothing but the state file goes wrong: the balance
    cannot be fetched (so nothing is written before [load()]), the levels
    are analysed and written, and the stream starts. *)
Definition c8_env : StartEnv :=
  mkStartEnv true true None WriteOk (Some (mkLevelAnalysis (mkTimeframeLevels [] [] [] [])
                                                           (mkTimeframeLevels [] [] [] [])))
    WriteOk true true WriteOk.

Lemma engineStop_idle (senv : StartEnv) (e : EngineState) (s : Store) (f : StateFile) :
  isRunning e = false -> Startup.engineStop senv e s f = (e, s, f).
Proof. intro H; unfold Startup.engineStop; rewrite H; reflexivity. Qed.

(** C8: a missing state file ([ENOENT]) is not an error: [load()] resolves
    and leaves every field as it was, so on a freshly constructed manager
    all fields keep their defaults (no position, stake 6.0, no balance, no
    levels, no update time).  Every other read error is rethrown, and a
    file whose contents do not parse makes [load()] throw.
    At start-up the failure is fatal: whenever [load()], called by
    [engine.start()] after the exchange is initialised and the balance
    step is done, throws, [runTradingBot] exits with code 1, the engine
    never runs (no stream, no level timer, no refresh) and the manager and
    file are left as the balance step left them.  A file still missing
    when [load()] runs is not fatal: with the other steps succeeding the
    bot keeps running, with no position and stake 6.0.  The last conjunct
    is one such fatal start-up: an unparsable file, the balance not
    fetched. *)
Theorem load_missing_file_defaults :
  (forall (parse : string -> option TradingState) (s : Store),
    load parse (ReadErr (Some ENOENT)) s = Loaded s /\
    load parse (ReadErr (Some ENOENT)) init = Loaded init /\
    mem init = mkTradingState None 6.0 None None None /\
    (forall code : option string,
       (code = Some ENOENT /\ load parse (ReadErr code) s = Loaded s) \/
       (code <> Some ENOENT /\ load parse (ReadErr code) s = Thrown code)) /\
    (forall data : string,
       match parse data with
       | None => load parse (ReadOk data) s = Thrown None
       | Some state => load parse (ReadOk data) s = Loaded (mkStore state (written s))
       end)) /\
  (forall (parse : string -> option TradingState) (senv : StartEnv) (now : Z)
          (f : StateFile) (code : option string),
     dirsOk senv = true -> initOk senv = true ->
     Startup.loadFile parse (snd (Startup.refreshBalance senv init f))
       (fst (Startup.refreshBalance senv init f)) = Thrown code ->
     Startup.runTradingBot parse senv now f =
       (Some 1%Z, TradingEngine.init, fst (Startup.refreshBalance senv init f),
        snd (Startup.refreshBalance senv init f))) /\
  (forall (parse : string -> option TradingState) (senv : StartEnv) (now : Z)
          (levels : LevelAnalysis),
     dirsOk senv = true -> initOk senv = true -> fetchedBalance senv = None ->
     analyzed senv = Some levels -> levelsWrite senv = WriteOk -> streamOk senv = true ->
     Startup.runTradingBot parse senv now NoFile =
       (None, TradingEngine.start TradingEngine.init,
        save (mkStore (mkTradingState None 6.0 None (Some levels) (Some now)) []),
        FileSaved (mkTradingState None 6.0 None (Some levels) (Some now)))) /\
  Startup.runTradingBot (fun _ => None) c8_env 0 (FileText "{"%string) =
    (Some 1%Z, TradingEngine.init, init, FileText "{"%string).
Proof.
  split; [|split; [|split]].
  - intros parse s; split; [reflexivity|]; split; [reflexivity|]; split; [reflexivity|].
    split.
    + intros [c|]; simpl.
      * destruct (String.eqb c ENOENT) eqn:E.
        -- apply String.eqb_eq in E; subst; left; split; reflexivity.
        -- right; split; [|reflexivity].
           intro H; injection H as H; subst; rewrite String.eqb_refl in E; discriminate.
      * right; split; [discriminate | reflexivity].
    + intro data; simpl; destruct (parse data); reflexivity.
  - intros parse senv now f code Hd Hi Hl.
    unfold Startup.runTradingBot, Startup.start; rewrite Hd, Hi; cbn [negb isRunning TradingEngine.init].
    destruct (Startup.refreshBalance senv init f) as [s1 f1]; cbn [fst snd] in Hl |- *.
    rewrite Hl.
    rewrite !engineStop_idle by reflexivity; reflexivity.
  - intros parse senv now levels Hd Hi Hb Ha Hw Hs.
    unfold Startup.runTradingBot, Startup.start, Startup.refreshBalance,
      Startup.engineUpdateLevels; rewrite Hd, Hi, Hb, Ha, Hw, Hs; reflexivity.
  - reflexivity.
Qed.

End LoadProofs.

Module StartupProofs.
Import TradingStateManager.

Lemma engineUpdateLevels_keeps (senv : StartEnv) (now : Z) (s : Store) (f : StateFile) :
  let '(_, s', _) := Startup.engineUpdateLevels senv now s f in
  currentPosition (mem s') = currentPosition (mem s) /\
  currentStakePercentage (mem s') = currentStakePercentage (mem s) /\
  accountBalance (mem s') = accountBalance (mem s).
Proof.
  unfold Startup.engineUpdateLevels.
  destruct (analyzed senv); [|auto].
  destruct (levelsWrite senv); cbn; auto.
Qed.

Lemma engineStop_keeps (senv : StartEnv) (e : EngineState) (s : Store) (f : StateFile) :
  let '(_, s', _) := Startup.engineStop senv e s f in mem s' = mem s.
Proof.
  unfold Startup.engineStop.
  destruct (negb (isRunning e)); [reflexivity|].
  destruct (stopStreamOk senv); [|reflexivity].
  destruct (stopWrite senv); reflexivity.
Qed.

(** At start-up the engine first writes its fresh manager, with only the
    fetched balance set, to the state file ([updateAccountBalance] inside
    [start()]), and only then calls [load()], which reads that write back.
    So when the balance is fetched and written, whatever the file held
    before (an open position, an adjusted stake, unparsable text) is
    overwritten: [load()] does not throw, and however start-up ends the
    manager has no position and stake 6.0. *)
Theorem start_discards_saved_state :
  forall (parse : string -> option TradingState) (senv : StartEnv) (now : Z)
         (f : StateFile) (usdt : Q),
    dirsOk senv = true -> initOk senv = true ->
    fetchedBalance senv = Some usdt -> balanceWrite senv = WriteOk ->
    Startup.loadFile parse (snd (Startup.refreshBalance senv init f))
      (fst (Startup.refreshBalance senv init f)) =
      Loaded (save (mkStore (mkTradingState None 6.0 (Some usdt) None None) [])) /\
    let '(_, _, s', _) := Startup.runTradingBot parse senv now f in
    currentPosition (mem s') = None /\ currentStakePercentage (mem s') = 6.0 /\
    accountBalance (mem s') = Some usdt.
Proof.
  intros parse senv now f usdt Hd Hi Hb Hw.
  split.
  - unfold Startup.refreshBalance; rewrite Hb, Hw; reflexivity.
  - unfold Startup.runTradingBot, Startup.start; rewrite Hd, Hi.
    cbn [negb isRunning TradingEngine.init].
    unfold Startup.refreshBalance at 1; rewrite Hb, Hw.
    cbn [Startup.writeThrough Startup.loadFile].
    pose proof (engineUpdateLevels_keeps senv now
                  (mkStore (mkTradingState None 6.0 (Some usdt) None None)
                     (written (save (mkStore (mkTradingState None 6.0 (Some usdt) None None) []))))
                  (FileSaved (mkTradingState None 6.0 (Some usdt) None None))) as Hk.
    destruct (Startup.engineUpdateLevels senv now _ _) as [[failed s3] f3].
    cbn in Hk; destruct Hk as (Hp & Hst & Hbal).
    destruct failed; [|destruct (streamOk senv)]; cbn [negb].
    3: { pose proof (engineStop_keeps senv
           (mkEngineState true false false 0 1) s3 f3) as H1.
         destruct (Startup.engineStop senv _ s3 f3) as [[e2 s2] f2].
         pose proof (engineStop_keeps senv e2 s2 f2) as H2.
         destruct (Startup.engineStop senv e2 s2 f2) as [[e4 s4] f4].
         rewrite H2, H1; auto. }
    2: { auto. }
    pose proof (engineStop_keeps senv
           (mkEngineState false false false 0 1) s3 f3) as H1.
    destruct (Startup.engineStop senv _ s3 f3) as [[e2 s2] f2].
    pose proof (engineStop_keeps senv e2 s2 f2) as H2.
    destruct (Startup.engineStop senv e2 s2 f2) as [[e4 s4] f4].
    rewrite H2, H1; auto.
Qed.

(** A file holding an open LONG position and a stake of 12: after start-up
    the position and the stake are gone. *)
Lemma start_discards_saved_state_witness :
  let saved := mkTradingState
                 (Some (mkPosition LONG 100 50 0.5 20 99.84 102 0 (Some "7"%string) []))
                 12 (Some 1000) None None in
  let senv := mkStartEnv true true (Some 900) WriteOk None WriteOk true true WriteOk in
  dirsOk senv = true /\ initOk senv = true /\ fetchedBalance senv = Some 900 /\
  balanceWrite senv = WriteOk /\
  (Startup.loadFile (fun _ => Some saved) (snd (Startup.refreshBalance senv init (FileSaved saved)))
     (fst (Startup.refreshBalance senv init (FileSaved saved))) =
     Loaded (save (mkStore (mkTradingState None 6.0 (Some 900) None None) [])) /\
   let '(_, _, s', _) := Startup.runTradingBot (fun _ => Some saved) senv 0 (FileSaved saved) in
   currentPosition (mem s') = None /\ currentStakePercentage (mem s') = 6.0 /\
   accountBalance (mem s') = Some 900).
Proof.
  intros saved senv.
  split; [reflexivity|]; split; [reflexivity|]; split; [reflexivity|]; split; [reflexivity|].
  apply (start_discards_saved_state (fun _ => Some saved) senv 0 (FileSaved saved) 900);
    reflexivity.
Defined.

End StartupProofs.

Module RiskProofs.
Import RiskManager.

Definition lossesOn (today : Z) (n : nat) (r : RiskState) : RiskState :=
  Nat.iter n (handleLoss today) r.

(** C2 (code_bug): with [maxDailyLosses = 3], after three losses recorded on
    day 0 [canOpenPosition] refuses on day 0 and keeps refusing on every
    later day: the limit test returns [false] before the day-rollover reset
    is reached, and the refusal leaves the state unchanged. *)
Theorem canOpenPosition_stuck_after_daily_limit :
  forall day : Z,
    let r := lossesOn 0 3 init in
    dailyLosses r = 3%Z /\ lastLossDate r = Some 0%Z /\
    canOpenPosition 3 day r = (false, r).
Proof.
  intro day; cbv zeta; vm_compute; repeat split; reflexivity.
Qed.

End RiskProofs.

Module EngineProofs.
Import TradingEngine.

Lemma step_not_running (e : EngineState) (ev : EngineEvent) :
  ev <> EvStart -> isRunning e = false ->
  isRunning (step e ev) = false /\ levelRefreshes (step e ev) = levelRefreshes e.
Proof.
  intros Hev Hr; destruct ev as [|ok|]; [congruence| |]; simpl.
  - unfold stop; rewrite Hr; simpl; auto.
  - unfold levelTimerFires; destruct (levelTimers e); [auto|]; rewrite Hr; simpl; auto.
Qed.

Lemma run_not_running (evs : list EngineEvent) (e : EngineState) :
  Forall (fun ev => ev <> EvStart) evs -> isRunning e = false ->
  levelRefreshes (run e evs) = levelRefreshes e.
Proof.
  unfold run; revert e; induction evs as [|ev rest IH]; intros e Hall Hr; simpl; [reflexivity|].
  inversion Hall as [|? ? Hev Hrest]; subst.
  destruct (step_not_running e ev Hev Hr) as [Hr' Hc].
  rewrite IH; assumption.
Qed.

(** C9 (as amended): [stop()] is a no-op when the engine is not running.
    When it is running, [stop()] clears [isRunning] and
    [isOpeningPosition] and awaits [stopPriceStream()] before it returns
    (when that succeeds the stream is down and [stop()] resolves); the
    level-update interval timer is left scheduled, but as long as the
    engine is not started again none of its later firings refreshes the
    levels, whatever [stop()] and timer events follow. *)
Theorem stop_then_no_refresh :
  forall (ok : bool) (e : EngineState),
    (match isRunning e with
     | false => stop ok e = (false, e)
     | true =>
         isRunning (snd (stop ok e)) = false /\
         isOpeningPosition (snd (stop ok e)) = false /\
         levelTimers (snd (stop ok e)) = levelTimers e /\
         (ok = true -> fst (stop ok e) = false /\ streamActive (snd (stop ok e)) = false)
     end) /\
    (forall evs : list EngineEvent,
       Forall (fun ev => ev <> EvStart) evs ->
       levelRefreshes (run (snd (stop ok e)) evs) = levelRefreshes (snd (stop ok e))).
Proof.
  intros ok e; split.
  - unfold stop; destruct (isRunning e); simpl; [|reflexivity].
    destruct ok; simpl; repeat split; try reflexivity; discriminate.
  - intros evs Hall; apply run_not_running; [assumption|].
    unfold stop; destruct (isRunning e) eqn:Hr; simpl; [destruct ok; reflexivity|].
    exact Hr.
Qed.

(** C9, the claim as stated: [stop()] does not cancel the level-refresh
    timer.  After a successful [start()] and [stop()], the interval
    scheduled by [start()] is still there. *)
Lemma stop_keeps_level_timer :
  let e := start init in
  isRunning e = true /\ levelTimers e = 1%nat /\
  stop true e = (false, mkEngineState false false false 1 1) /\
  levelTimers (snd (stop true e)) = 1%nat.
Proof. vm_compute; repeat split; reflexivity. Qed.

End EngineProofs.

Module EntryProofs.
Import PositionManager.

Definition hitIn (price : Q) (ls : list PriceLevel) : option PriceLevel :=
  find (fun l => isLevelHit price (lvl_price l)) ls.

Lemma scanLevels_const (price : Q) (x : option EntrySignal) (ls : list PriceLevel) :
  scanLevels price (fun _ => x) ls = match hitIn price ls with Some _ => x | None => None end.
Proof.
  unfold hitIn; induction ls as [|l rest IH]; simpl; [reflexivity|].
  destruct (isLevelHit price (lvl_price l)); [|exact IH].
  destruct x as [sg|]; [reflexivity|].
  rewrite IH; destruct (find _ rest); reflexivity.
Qed.

Lemma leb_trans : Transitive (fun a b => is_true (PriceLevelOrder.leb a b)).
Proof.
  intros a b c Hab Hbc; unfold is_true, PriceLevelOrder.leb in *.
  apply Qle_bool_iff in Hab, Hbc; apply Qle_bool_iff; lra.
Qed.

Lemma sort_strongly_sorted (ls : list PriceLevel) :
  StronglySorted (fun a b => is_true (PriceLevelOrder.leb a b)) (PriceLevelSort.sort ls).
Proof.
  apply Sorted_StronglySorted; [exact leb_trans | apply Sorted_LocallySorted_iff, PriceLevelSort.LocallySorted_sort].
Qed.

Lemma find_above_least (price : Q) (ls : list PriceLevel) (r : PriceLevel) :
  StronglySorted (fun a b => is_true (PriceLevelOrder.leb a b)) ls ->
  find (fun level => Qlt_bool price (lvl_price level)) ls = Some r ->
  forall r', In r' ls -> price < lvl_price r' -> lvl_price r <= lvl_price r'.
Proof.
  induction ls as [|a rest IH]; intros Hs Hf r' Hin Hlt; [discriminate|].
  inversion Hs as [|? ? Hs' Hall]; subst.
  simpl in Hf; destruct (Qlt_bool price (lvl_price a)) eqn:Ea.
  - injection Hf as <-.
    destruct Hin as [<-|Hin]; [apply Qle_refl|].
    rewrite Forall_forall in Hall; specialize (Hall r' Hin).
    unfold is_true, PriceLevelOrder.leb in Hall; apply Qle_bool_iff; exact Hall.
  - destruct Hin as [<-|Hin].
    + apply Qlt_bool_iff in Hlt; congruence.
    + exact (IH Hs' Hf r' Hin Hlt).
Qed.

(** What [findNextLevel price levels up] returns: the least level strictly
    above [price], or nothing when no level lies strictly above it. *)
Lemma findNextLevel_up_spec (price : Q) (levels : list PriceLevel) :
  match findNextLevel price levels up with
  | Some r =>
      In r levels /\ price < lvl_price r /\
      (forall r', In r' levels -> price < lvl_price r' -> lvl_price r <= lvl_price r')
  | None => forall r', In r' levels -> lvl_price r' <= price
  end.
Proof.
  unfold findNextLevel.
  pose proof (PriceLevelSort.Permuted_sort levels) as Hp.
  destruct (find _ (PriceLevelSort.sort levels)) as [r|] eqn:Hf.
  - destruct (find_some _ _ Hf) as [Hin Hlt].
    apply Qlt_bool_iff in Hlt.
    split; [|split; [exact Hlt|]].
    + apply (Permutation_in _ (Permutation_sym Hp)); exact Hin.
    + intros r' Hin' Hlt'.
      apply (find_above_least price (PriceLevelSort.sort levels) r (sort_strongly_sorted levels) Hf);
        [apply (Permutation_in _ Hp); exact Hin' | exact Hlt'].
  - intros r' Hin.
    pose proof (find_none _ _ Hf r' (Permutation_in _ Hp Hin)) as Hn; simpl in Hn.
    destruct (Qlt_le_dec price (lvl_price r')) as [Hlt|Hle]; [|exact Hle].
    apply Qlt_bool_iff in Hlt; congruence.
Qed.

(** C3 (as amended).  Supports are scanned in the order 4h, 1h, 15m, 5m,
    each list in stored order ([flatten]).  When a support lies within the
    relative distance 0.001 of the price and some resistance lies strictly
    above it, the result is a LONG signal whose [nextLevel] is the nearest
    resistance strictly above the price, rounded to 8 decimals.  When no
    resistance lies strictly above the price, no LONG signal is produced
    (whatever support was hit); the only signal that can then come out is a
    SHORT one, from the resistance scan.  For price 100, support 100.05 and
    resistances 102 and 105 the result is a LONG signal with nextLevel 102. *)
Theorem checkEntryConditions_long_spec :
  (forall (s : Store) (price : Q) (la : LevelAnalysis),
    let supports := flatten (holdLevels la) in
    let resistances := flatten (resistanceLevels la) in
    let result := checkEntryConditions s price (Some la) in
    match hitIn price supports, findNextLevel price resistances up with
    | Some support, Some r =>
        In support supports /\
        Qabs (price - lvl_price support) / lvl_price support <= MIN_DISTANCE /\
        result = Some (createEntrySignal s LONG price r) /\
        stype (createEntrySignal s LONG price r) = LONG /\
        nextLevel (createEntrySignal s LONG price r) = fixedNumber (lvl_price r) /\
        In r resistances /\ price < lvl_price r /\
        (forall r', In r' resistances -> price < lvl_price r' -> lvl_price r <= lvl_price r')
    | _, None =>
        (forall r', In r' resistances -> lvl_price r' <= price) /\
        (forall sg, result = Some sg -> stype sg = SHORT)
    | None, _ =>
        forall sg, result = Some sg -> stype sg = SHORT
    end) /\
  (let la := mkLevelAnalysis (mkTimeframeLevels [mkPriceLevel 100.05 0] [] [] [])
                             (mkTimeframeLevels [mkPriceLevel 102 0; mkPriceLevel 105 0] [] [] []) in
   match checkEntryConditions TradingStateManager.init 100 (Some la) with
   | Some sg => stype sg = LONG /\ nextLevel sg == 102
   | None => False
   end).
Proof.
  split; [|vm_compute; split; reflexivity].
  intros s price la; cbv zeta; unfold checkEntryConditions.
  rewrite !scanLevels_const.
  pose proof (findNextLevel_up_spec price (flatten (resistanceLevels la))) as Hup.
  (* the SHORT scan only ever yields SHORT signals *)
  assert (Hshort : forall sg,
    match hitIn price (flatten (resistanceLevels la)) with
    | Some _ => match findNextLevel price (flatten (holdLevels la)) down with
                | Some nextSupport => Some (createEntrySignal s SHORT price nextSupport)
                | None => None end
    | None => None end = Some sg -> stype sg = SHORT).
  { intros sg; destruct (hitIn _ _); [|discriminate].
    destruct (findNextLevel _ _ down); [|discriminate].
    intro H; injection H as <-; reflexivity. }
  destruct (hitIn price (flatten (holdLevels la))) as [sup|] eqn:Hhit;
    destruct (findNextLevel price (flatten (resistanceLevels la)) up) as [r|] eqn:Hnext.
  - destruct Hup as (Hin & Hlt & Hleast).
    unfold hitIn in Hhit; destruct (find_some _ _ Hhit) as [Hsin Hsh].
    unfold isLevelHit in Hsh.
    destruct (Qeq_bool (lvl_price sup) 0); [discriminate|].
    apply Qle_bool_iff in Hsh.
    repeat split; auto.
  - split; [exact Hup | exact Hshort].
  - exact Hshort.
  - split; [exact Hup | exact Hshort].
Qed.

(** C3, the claim as stated ("no signal is produced" when no resistance
    lies above the price): at price 100 with supports 100.05 and 90 and the
    single resistance 99.95, the support 100.05 is hit and no resistance is
    above 100, yet a SHORT signal (target 90) is returned. *)
Lemma entry_signal_without_resistance_above :
  let la := mkLevelAnalysis (mkTimeframeLevels [mkPriceLevel 100.05 0; mkPriceLevel 90 0] [] [] [])
                            (mkTimeframeLevels [mkPriceLevel 99.95 0] [] [] []) in
  isLevelHit 100 100.05 = true /\
  findNextLevel 100 (flatten (resistanceLevels la)) up = None /\
  checkEntryConditions TradingStateManager.init 100 (Some la) =
    Some (mkEntrySignal SHORT (fixedNumber 100) (fixedNumber 0) (fixedNumber 90)).
Proof. vm_compute; repeat split; reflexivity. Qed.

End EntryProofs.

Module OpenProofs.
Import PositionManager.

Lemma fixedNumber_nonneg_eq (x : Q) :
  0 <= x -> fixedNumber x = Qfloor (x * inject_Z (Zpos PRECISION_SCALE) + (1#2)) # PRECISION_SCALE.
Proof. intro H; unfold fixedNumber; apply Qle_bool_iff in H; rewrite H; reflexivity. Qed.

Lemma fixedNumber_Qeq (x y : Q) : x == y -> fixedNumber x = fixedNumber y.
Proof.
  intro H; unfold fixedNumber.
  assert (Hb : Qle_bool 0 x = Qle_bool 0 y).
  { destruct (Qle_bool 0 x) eqn:Ex, (Qle_bool 0 y) eqn:Ey; auto.
    - apply Qle_bool_iff in Ex; rewrite H in Ex; apply Qle_bool_iff in Ex; congruence.
    - apply Qle_bool_iff in Ey; rewrite <- H in Ey; apply Qle_bool_iff in Ey; congruence. }
  rewrite Hb; destruct (Qle_bool 0 y).
  - rewrite H; reflexivity.
  - rewrite H; reflexivity.
Qed.

(** Rounding to 8 decimals is monotone on non-negative numbers. *)
Lemma fixedNumber_mono (x y : Q) : 0 <= x -> x <= y -> fixedNumber x <= fixedNumber y.
Proof.
  intros Hx Hxy.
  rewrite (fixedNumber_nonneg_eq x Hx), (fixedNumber_nonneg_eq y (Qle_trans _ _ _ Hx Hxy)).
  pose proof (Qfloor_resp_le (x * inject_Z (Zpos PRECISION_SCALE) + (1#2))
                             (y * inject_Z (Zpos PRECISION_SCALE) + (1#2))) as Hf.
  assert (Hs : 0 <= inject_Z (Zpos PRECISION_SCALE)) by (unfold Qle; simpl; lia).
  assert (Hm : x * inject_Z (Zpos PRECISION_SCALE) <= y * inject_Z (Zpos PRECISION_SCALE)).
  { apply Qmult_le_compat_r; assumption. }
  specialize (Hf (Qplus_le_compat _ _ _ _ Hm (Qle_refl _))).
  unfold Qle; cbn [Qnum Qden]; apply Z.mul_le_mono_nonneg_r; [lia | exact Hf].
Qed.

Lemma openPosition_result (has : bool) (now : Z) (sig : EntrySignal) (e : Env) (p : Position) :
  fst (openPosition has now sig e) = Some p ->
  ptype p = stype sig /\ entryPrice p = sprice sig /\ takeProfit p = nextLevel sig /\
  stopLoss p = calculateInitialStop (stype sig) (sprice sig).
Proof.
  unfold openPosition, bind, ret, throw; intro H.
  repeat (first [ progress cbn beta iota zeta in H
                | match type of H with context [match ?x with _ => _ end] => destruct x end ]);
    try discriminate; injection H as <-; repeat split.
Qed.

(** Two entries at price 100 that [checkEntryConditions] produces: a LONG
    (support 100.05 hit, resistance 102 above) and a SHORT (resistance
    100.05 hit, support 90 below); and an exchange that fills the entry. *)
Definition c5_long_levels : LevelAnalysis :=
  mkLevelAnalysis (mkTimeframeLevels [mkPriceLevel 100.05 0] [] [] [])
                  (mkTimeframeLevels [mkPriceLevel 102 0] [] [] []).
Definition c5_short_levels : LevelAnalysis :=
  mkLevelAnalysis (mkTimeframeLevels [mkPriceLevel 90 0] [] [] [])
                  (mkTimeframeLevels [mkPriceLevel 100.05 0] [] [] []).
Definition c5_env : Env := mkEnv [RTicker 100; ROrder "1" 100] [].

(** C5 (a defect of the code).  Every opened position takes the signal's
    side, entry and target, and its stop is [entry * (1 - 0.0016)] for LONG
    (0.0016 being also the trailing distance [stopDistance] of both sides)
    but [entry * (1 + 0.00167)] for SHORT, rounded to 8 decimals.  On the
    two entries at 100 above, both produced by [checkEntryConditions], the
    LONG stop is 99.84 and the SHORT stop 100.167: no single stop factor
    serves both sides. *)
Theorem openPosition_stop_factors :
  (forall (has : bool) (now : Z) (sig : EntrySignal) (e : Env) (p : Position),
     fst (openPosition has now sig e) = Some p ->
     ptype p = stype sig /\ entryPrice p = sprice sig /\ takeProfit p = nextLevel sig /\
     match stype sig with
     | LONG => stopLoss p = fixedNumber (sprice sig * (1 - stopDistance))
     | SHORT => stopLoss p = fixedNumber (sprice sig * (1 + 0.00167))
     end) /\
  match checkEntryConditions TradingStateManager.init 100 (Some c5_long_levels),
        checkEntryConditions TradingStateManager.init 100 (Some c5_short_levels) with
  | Some sl, Some ss =>
      stype sl = LONG /\ stype ss = SHORT /\
      match fst (openPosition false 0 sl c5_env), fst (openPosition false 0 ss c5_env) with
      | Some pl, Some ps =>
          entryPrice pl == 100 /\ entryPrice ps == 100 /\
          stopLoss pl == 99.84 /\ stopLoss ps == 100.167 /\
          ~ (exists f : Q, stopLoss pl == entryPrice pl * (1 - f) /\
                           stopLoss ps == entryPrice ps * (1 + f))
      | _, _ => False
      end
  | _, _ => False
  end.
Proof.
  split.
  - intros has now sig e p Hop.
    destruct (openPosition_result has now sig e p Hop) as (Ht & He & Htp & Hs).
    split; [exact Ht|]; split; [exact He|]; split; [exact Htp|].
    rewrite Hs; unfold calculateInitialStop.
    destruct (stype sig); apply fixedNumber_Qeq; unfold stopDistance; ring.
  - destruct (checkEntryConditions TradingStateManager.init 100 (Some c5_long_levels)) as [sl|] eqn:E1;
      [|vm_compute in E1; discriminate].
    destruct (checkEntryConditions TradingStateManager.init 100 (Some c5_short_levels)) as [ss|] eqn:E2;
      [|vm_compute in E2; discriminate].
    vm_compute in E1, E2; injection E1 as <-; injection E2 as <-.
    split; [reflexivity|]; split; [reflexivity|].
    destruct (fst (openPosition false 0 _ c5_env)) as [pl|] eqn:E3; [|vm_compute in E3; discriminate].
    destruct (fst (openPosition false 0 (mkEntrySignal SHORT _ _ _) c5_env)) as [ps|] eqn:E4;
      [|vm_compute in E4; discriminate].
    vm_compute in E3, E4; injection E3 as <-; injection E4 as <-.
    cbn [entryPrice stopLoss].
    split; [reflexivity|]; split; [reflexivity|]; split; [reflexivity|]; split; [reflexivity|].
    intros [f [H1 H2]]; lra.
Qed.

End OpenProofs.

Module CloseProofs.
Import PositionManager.

Definition limitCallsOf (p : Position) (t : Q) : list ExchangeCall :=
  [CallFetchTicker; CallCreateOrder (limitCloseParams p (fixedNumber t))].

(** One LIMIT attempt: it fetches the ticker and, when that succeeds, places
    one order built by [limitCloseParams] from the rounded ticker price. *)
Lemma limitAttempt_calls (p : Position) (e : Env) :
  match replies e with
  | RTicker t :: rs =>
      snd (limitAttempt p e) =
        mkEnv (tl rs) (calls e ++ limitCallsOf p t) /\
      fst (limitAttempt p e) =
        match rs with ROrder _ q :: _ => Some (fixedNumber q) | _ => None end
  | _ =>
      limitAttempt p e = (None, mkEnv (tl (replies e)) (calls e ++ [CallFetchTicker]))
  end.
Proof.
  destruct e as [[|r rs] log]; [reflexivity|].
  destruct r as [t| | |]; try reflexivity.
  unfold limitAttempt, bind, ret, fetchTicker, createOrder, next_reply, record_call, limitCallsOf;
    simpl.
  destruct rs as [|[] rs']; simpl; rewrite <- ?app_assoc; split; reflexivity.
Qed.

Lemma marketLoop_calls (fuel : nat) (p : Position) (e : Env) :
  exists new, calls (snd (marketLoop fuel p e)) = calls e ++ new /\
    Forall (fun c => c = CallCreateOrder (marketCloseParams p) \/ c = CallSleep RETRY_DELAY) new.
Proof.
  revert e; induction fuel as [|fuel IH]; intro e; simpl.
  - exists []; split; [rewrite app_nil_r; reflexivity | constructor].
  - unfold createOrder, next_reply, record_call.
    set (e1 := mkEnv (tl (replies e)) (calls e ++ [CallCreateOrder (marketCloseParams p)])).
    assert (Hretry : exists new, calls (snd (marketLoop fuel p (sleep RETRY_DELAY e1))) = calls e ++ new /\
      Forall (fun c => c = CallCreateOrder (marketCloseParams p) \/ c = CallSleep RETRY_DELAY) new).
    { destruct (IH (sleep RETRY_DELAY e1)) as [new [Hc Hf]].
      exists ([CallCreateOrder (marketCloseParams p); CallSleep RETRY_DELAY] ++ new); split.
      - rewrite Hc; unfold e1; simpl; rewrite <- !app_assoc; reflexivity.
      - apply Forall_cons; [left; reflexivity|].
        apply Forall_cons; [right; reflexivity|]; exact Hf. }
    destruct (replies e) as [|r rs]; [exact Hretry|].
    destruct r as [| id q | |]; try exact Hretry.
    exists [CallCreateOrder (marketCloseParams p)]; split; [reflexivity|].
    apply Forall_cons; [left; reflexivity | constructor].
Qed.

Lemma marketLoop_retries (p : Position) (k : nat) :
  forall (fuel : nat) (id : string) (q : Q) (rs : list ExchangeReply) (log : list ExchangeCall),
    (k < fuel)%nat ->
    marketLoop fuel p (mkEnv (repeat RFail k ++ ROrder id q :: rs) log) =
      (Some (fixedNumber q),
       mkEnv rs (log ++ List.concat (repeat [CallCreateOrder (marketCloseParams p); CallSleep RETRY_DELAY] k)
                   ++ [CallCreateOrder (marketCloseParams p)])).
Proof.
  induction k as [|k IH]; intros fuel id q rs log Hk; (destruct fuel as [|fuel]; [lia|]).
  - reflexivity.
  - simpl. unfold sleep, record_call; simpl.
    rewrite IH by lia; simpl; rewrite <- !app_assoc; reflexivity.
Qed.

Lemma closePosition_unfold (fuel : nat) (p : Position) (reason : CloseReason) (now : Z) (e : Env) :
  closePosition fuel p reason now e =
    match limitAttempt p e with
    | (Some x1, e1) => (Some (mkCloseResult p reason now x1), e1)
    | (None, e1) =>
        match limitAttempt p (sleep RETRY_DELAY e1) with
        | (Some x2, e2) => (Some (mkCloseResult p reason now x2), e2)
        | (None, e2) =>
            match limitAttempt p (sleep RETRY_DELAY e2) with
            | (Some x3, e3) => (Some (mkCloseResult p reason now x3), e3)
            | (None, e3) =>
                match marketLoop fuel p e3 with
                | (Some x, e4) => (Some (mkCloseResult p reason now x), e4)
                | (None, e4) => (None, e4)
                end
            end
        end
    end.
Proof.
  unfold closePosition, maxRetries; simpl.
  destruct (limitAttempt p e) as [[x1|] e1]; [reflexivity|].
  destruct (limitAttempt p (sleep RETRY_DELAY e1)) as [[x2|] e2]; [reflexivity|].
  destruct (limitAttempt p (sleep RETRY_DELAY e2)) as [[x3|] e3]; reflexivity.
Qed.

(** C1 (as amended).  [closePosition] makes at most three LIMIT attempts,
    2000 ms apart: each fetches the ticker and places a reduce-only LIMIT
    order on the stored [contractAmount], selling at the rounded ticker
    price times 0.9995 to close a LONG, buying at the rounded ticker price
    times 1.0005 to close a SHORT.  It returns as soon as an attempt
    succeeds; only when all three fail does it enter the MARKET loop, which
    places only reduce-only MARKET orders on [contractAmount] (2000 ms
    apart), has no retry ceiling and returns at the first success.  The
    exit price is the successful order's price rounded to 8 decimals: after
    three LIMIT failures and one MARKET success it is the MARKET order's
    price rounded to 8 decimals, and no further call is made. *)
Theorem closePosition_escalation :
  (forall (p : Position) (c : Q),
     op_type (limitCloseParams p c) = LIMIT /\ reduceOnly (limitCloseParams p c) = Some true /\
     amount (limitCloseParams p c) = contractAmount p /\
     op_type (marketCloseParams p) = MARKET /\ reduceOnly (marketCloseParams p) = Some true /\
     amount (marketCloseParams p) = contractAmount p /\
     match ptype p with
     | LONG => op_side (limitCloseParams p c) = SELL /\ op_side (marketCloseParams p) = SELL /\
               op_price (limitCloseParams p c) = Some (fixedNumber (c * 0.9995))
     | SHORT => op_side (limitCloseParams p c) = BUY /\ op_side (marketCloseParams p) = BUY /\
                op_price (limitCloseParams p c) = Some (fixedNumber (c * 1.0005))
     end) /\
  (forall (fuel : nat) (p : Position) (reason : CloseReason) (now : Z) (e : Env),
     closePosition fuel p reason now e =
       match limitAttempt p e with
       | (Some x1, e1) => (Some (mkCloseResult p reason now x1), e1)
       | (None, e1) =>
           match limitAttempt p (sleep RETRY_DELAY e1) with
           | (Some x2, e2) => (Some (mkCloseResult p reason now x2), e2)
           | (None, e2) =>
               match limitAttempt p (sleep RETRY_DELAY e2) with
               | (Some x3, e3) => (Some (mkCloseResult p reason now x3), e3)
               | (None, e3) =>
                   match marketLoop fuel p e3 with
                   | (Some x, e4) => (Some (mkCloseResult p reason now x), e4)
                   | (None, e4) => (None, e4)
                   end
               end
           end
       end) /\
  (forall (p : Position) (e : Env),
     match replies e with
     | RTicker t :: rs =>
         snd (limitAttempt p e) = mkEnv (tl rs) (calls e ++ limitCallsOf p t) /\
         fst (limitAttempt p e) = match rs with ROrder _ q :: _ => Some (fixedNumber q) | _ => None end
     | _ => limitAttempt p e = (None, mkEnv (tl (replies e)) (calls e ++ [CallFetchTicker]))
     end) /\
  (forall (fuel : nat) (p : Position) (e : Env),
     exists new, calls (snd (marketLoop fuel p e)) = calls e ++ new /\
       Forall (fun c => c = CallCreateOrder (marketCloseParams p) \/ c = CallSleep RETRY_DELAY) new) /\
  (forall (p : Position) (k fuel : nat) (id : string) (q : Q) (rs : list ExchangeReply)
          (log : list ExchangeCall),
     (k < fuel)%nat ->
     marketLoop fuel p (mkEnv (repeat RFail k ++ ROrder id q :: rs) log) =
       (Some (fixedNumber q),
        mkEnv rs (log ++ List.concat (repeat [CallCreateOrder (marketCloseParams p); CallSleep RETRY_DELAY] k)
                    ++ [CallCreateOrder (marketCloseParams p)]))) /\
  (forall (fuel : nat) (p : Position) (reason : CloseReason) (now : Z) (t1 t2 t3 : Q) (id : string)
          (q : Q) (rs : list ExchangeReply) (log : list ExchangeCall),
     closePosition (S fuel) p reason now
       (mkEnv ([RTicker t1; RFail; RTicker t2; RFail; RTicker t3; RFail; ROrder id q] ++ rs) log) =
       (Some (mkCloseResult p reason now (fixedNumber q)),
        mkEnv rs (log ++ limitCallsOf p t1 ++ [CallSleep RETRY_DELAY] ++ limitCallsOf p t2
                      ++ [CallSleep RETRY_DELAY] ++ limitCallsOf p t3
                      ++ [CallCreateOrder (marketCloseParams p)])) /\
     exitPrice (mkCloseResult p reason now (fixedNumber q)) = fixedNumber q).
Proof.
  split; [|split; [|split; [|split; [|split]]]].
  - intros p c; unfold limitCloseParams, marketCloseParams, closeLimitPrice, closeSide; simpl.
    destruct (ptype p); repeat split.
  - exact closePosition_unfold.
  - exact limitAttempt_calls.
  - exact marketLoop_calls.
  - intros p k fuel id q rs log Hk; exact (marketLoop_retries p k fuel id q rs log Hk).
  - intros fuel p reason now t1 t2 t3 id q rs log; split; [|reflexivity].
    rewrite closePosition_unfold.
    unfold limitAttempt, bind, ret, fetchTicker, createOrder, next_reply, sleep, record_call,
      limitCallsOf; simpl.
    rewrite <- !app_assoc; reflexivity.
Qed.

(** C1, the claim as stated ("exitPrice equals the MARKET fill price"):
    after three failed LIMIT attempts, a MARKET order reported at
    65000.123456789 gives the exit price 65000.12345679, its rounding to 8
    decimals. *)
Lemma closePosition_exit_price_rounded :
  let p := mkPosition LONG 65000 65 0.001 20 64896 66000 0 None [] in
  match fst (closePosition 1 p stopLossReason 0
               (mkEnv [RTicker 65000; RFail; RTicker 65000; RFail; RTicker 65000; RFail;
                       ROrder "m" 65000.123456789] [])) with
  | Some r => exitPrice r == 65000.12345679 /\ ~ (exitPrice r == 65000.123456789)
  | None => False
  end.
Proof. vm_compute; split; [reflexivity | discriminate]. Qed.

End CloseProofs.

(* ===================================================================== *)
(*  Further properties of the code                                       *)
(* ===================================================================== *)

Module RoundingProofs.
Import OpenProofs.

Lemma Qfloor_unique (x : Q) (z : Z) : inject_Z z <= x -> x < inject_Z z + 1 -> Qfloor x = z.
Proof.
  intros H1 H2.
  pose proof (Qfloor_le x) as F1; pose proof (Qlt_floor x) as F2.
  rewrite inject_Z_plus in F2; change (inject_Z 1) with 1 in F2.
  assert (A : inject_Z z < inject_Z (Qfloor x + 1)) by (rewrite inject_Z_plus; change (inject_Z 1) with 1; lra).
  assert (B : inject_Z (Qfloor x) < inject_Z (z + 1)) by (rewrite inject_Z_plus; change (inject_Z 1) with 1; lra).
  rewrite <- Zlt_Qlt in A, B; lia.
Qed.

Lemma grid_scale (z : Z) : z # PRECISION_SCALE == inject_Z z * (1 # PRECISION_SCALE).
Proof. unfold Qeq, Qmult, inject_Z, PRECISION_SCALE; simpl; lia. Qed.

Lemma scale_value : inject_Z (Zpos PRECISION_SCALE) == 100000000.
Proof. reflexivity. Qed.

(** Every result of [fixedNumber] is a multiple of 10^-8. *)
Lemma fixedNumber_grid (x : Q) : exists w, fixedNumber x = w # PRECISION_SCALE.
Proof.
  unfold fixedNumber; destruct (Qle_bool 0 x); eexists; reflexivity.
Qed.

Lemma fixedNumber_on_grid (w : Z) : fixedNumber (w # PRECISION_SCALE) = w # PRECISION_SCALE.
Proof.
  assert (Hm : (w # PRECISION_SCALE) * inject_Z (Zpos PRECISION_SCALE) == inject_Z w).
  { unfold Qeq, Qmult, inject_Z, PRECISION_SCALE; simpl; lia. }
  unfold fixedNumber; qcase_bool.
  - f_equal; apply Qfloor_unique; rewrite Hm; lra.
  - cbn [Qopp Qnum Qden].
    assert (Hf : Qfloor (- (w # PRECISION_SCALE) * inject_Z (Zpos PRECISION_SCALE) + (1 # 2)) = (- w)%Z).
    { assert (Hm' : - (w # PRECISION_SCALE) * inject_Z (Zpos PRECISION_SCALE) == inject_Z (- w)).
      { rewrite inject_Z_opp, <- Hm; ring. }
      apply Qfloor_unique; rewrite Hm'; lra. }
    rewrite Hf; unfold Qopp; cbn [Qnum Qden]; rewrite Z.opp_involutive; reflexivity.
Qed.

Lemma fixedNumber_error_bound (x : Q) :
  Qabs (fixedNumber x - x) <= 1 # (2 * PRECISION_SCALE).
Proof.
  unfold fixedNumber; apply Qabs_Qle_condition; qcase_bool.
  - set (z := Qfloor _).
    pose proof (Qfloor_le (x * inject_Z (Zpos PRECISION_SCALE) + (1 # 2))) as F1.
    pose proof (Qlt_floor (x * inject_Z (Zpos PRECISION_SCALE) + (1 # 2))) as F2.
    fold z in F1, F2; rewrite inject_Z_plus in F2; change (inject_Z 1) with 1 in F2.
    rewrite grid_scale; rewrite scale_value in F1, F2.
    change (1 # 2 * PRECISION_SCALE) with (1 # 200000000); change (1 # PRECISION_SCALE) with (1 # 100000000).
    split; lra.
  - set (z := Qfloor _).
    pose proof (Qfloor_le (- x * inject_Z (Zpos PRECISION_SCALE) + (1 # 2))) as F1.
    pose proof (Qlt_floor (- x * inject_Z (Zpos PRECISION_SCALE) + (1 # 2))) as F2.
    fold z in F1, F2; rewrite inject_Z_plus in F2; change (inject_Z 1) with 1 in F2.
    rewrite grid_scale; rewrite scale_value in F1, F2.
    change (1 # 2 * PRECISION_SCALE) with (1 # 200000000); change (1 # PRECISION_SCALE) with (1 # 100000000).
    split; lra.
Qed.

Lemma fixedNumber_opp (x : Q) : fixedNumber (- x) == - fixedNumber x.
Proof.
  destruct (Qlt_le_dec 0 x) as [Hp|Hn].
  - unfold fixedNumber.
    destruct (Qle_bool 0 (- x)) eqn:E1; [apply Qle_bool_iff in E1; lra|].
    destruct (Qle_bool 0 x) eqn:E2; [|assert (0 <= x) by lra; apply Qle_bool_iff in H; congruence].
    rewrite (Qfloor_comp (- - x * inject_Z (Zpos PRECISION_SCALE) + (1 # 2))
                         (x * inject_Z (Zpos PRECISION_SCALE) + (1 # 2))) by ring.
    reflexivity.
  - destruct (Qeq_dec x 0) as [H0|Hne].
    + rewrite (fixedNumber_Qeq x 0 H0), (fixedNumber_Qeq (- x) 0) by (rewrite H0; reflexivity).
      reflexivity.
    + assert (Hlt : x < 0) by (apply Qle_lteq in Hn; destruct Hn as [Hn|Hn]; [exact Hn | contradiction]).
      unfold fixedNumber.
      destruct (Qle_bool 0 (- x)) eqn:E1; [|assert (0 <= - x) by lra; apply Qle_bool_iff in H; congruence].
      destruct (Qle_bool 0 x) eqn:E2; [apply Qle_bool_iff in E2; lra|].
      rewrite Qopp_involutive; reflexivity.
Qed.

Lemma fixedNumber_zero : fixedNumber 0 == 0.
Proof. reflexivity. Qed.

Lemma fixedNumber_mono_all (x y : Q) : x <= y -> fixedNumber x <= fixedNumber y.
Proof.
  intro Hxy.
  destruct (Qlt_le_dec x 0) as [Hx|Hx]; [|exact (fixedNumber_mono x y Hx Hxy)].
  assert (Ex : fixedNumber x == - fixedNumber (- x)).
  { rewrite fixedNumber_opp; ring. }
  destruct (Qlt_le_dec y 0) as [Hy|Hy].
  - assert (Ey : fixedNumber y == - fixedNumber (- y)) by (rewrite fixedNumber_opp; ring).
    rewrite Ex, Ey.
    pose proof (fixedNumber_mono (- y) (- x)) as M; lra.
  - pose proof (fixedNumber_mono 0 (- x)) as M1; pose proof (fixedNumber_mono 0 y) as M2.
    rewrite fixedNumber_zero in M1, M2; rewrite Ex; lra.
Qed.

(** [fixedNumber y] is negative exactly when [y] is at most -0.5e-8. *)
Lemma fixedNumber_neg_iff (y : Q) : fixedNumber y < 0 <-> y <= - (1 # 2 * PRECISION_SCALE).
Proof.
  destruct (Qlt_le_dec y 0) as [Hy|Hy].
  - unfold fixedNumber.
    destruct (Qle_bool 0 y) eqn:E; [apply Qle_bool_iff in E; lra|].
    set (z := Qfloor _).
    pose proof (Qfloor_le (- y * inject_Z (Zpos PRECISION_SCALE) + (1 # 2))) as F1.
    pose proof (Qlt_floor (- y * inject_Z (Zpos PRECISION_SCALE) + (1 # 2))) as F2.
    fold z in F1, F2; rewrite inject_Z_plus in F2; change (inject_Z 1) with 1 in F2.
    rewrite scale_value in F1, F2.
    change (1 # 2 * PRECISION_SCALE) with (1 # 200000000).
    split; intro H.
    + assert (Hz : (0 < z)%Z).
      { unfold Qlt in H; cbn [Qnum Qden Qopp] in H; lia. }
      assert (Hz1 : inject_Z 1 <= inject_Z z) by (rewrite <- Zle_Qle; lia).
      change (inject_Z 1) with 1 in Hz1; lra.
    + assert (Hz : inject_Z 0 < inject_Z z) by (change (inject_Z 0) with 0; lra).
      rewrite <- Zlt_Qlt in Hz.
      unfold Qlt; cbn [Qnum Qden Qopp]; lia.
  - pose proof (fixedNumber_mono 0 y (Qle_refl 0) Hy) as M.
    rewrite fixedNumber_zero in M.
    change (1 # 2 * PRECISION_SCALE) with (1 # 200000000).
    split; intro H; lra.
Qed.

End RoundingProofs.

Module RoundingExtra.
Import RoundingProofs.

(** [fixedNumber] rounds to the nearest multiple of 10^-8: the result is on
    that grid, within half a grid step (0.5e-8) of its argument, and
    rounding it again changes nothing. *)
Theorem fixedNumber_rounding :
  forall x : Q,
    Qabs (fixedNumber x - x) <= 1 # (2 * PRECISION_SCALE) /\
    (exists w, fixedNumber x = w # PRECISION_SCALE) /\
    fixedNumber (fixedNumber x) = fixedNumber x.
Proof.
  intro x; split; [apply fixedNumber_error_bound|].
  destruct (fixedNumber_grid x) as [w Hw]; split; [exists w; exact Hw|].
  rewrite Hw; apply fixedNumber_on_grid.
Qed.

(** [fixedNumber] is symmetric about zero (a negative number is rounded as
    its absolute value, behind a minus sign) and monotone on all numbers. *)
Theorem fixedNumber_symmetric_monotone :
  forall x y : Q,
    fixedNumber (- x) == - fixedNumber x /\
    (x <= y -> fixedNumber x <= fixedNumber y).
Proof.
  intros x y; split; [apply fixedNumber_opp | apply fixedNumber_mono_all].
Qed.

End RoundingExtra.

Module PnLProofs.
Import PositionManager RoundingProofs.

(** The trade result built by [closePosition]: its [pnl] is
    [calculatePnL] at the exit price, and it is flagged [isLoss] exactly
    when the unrounded PnL ([(exit - entry) * contractAmount] for LONG,
    [(entry - exit) * contractAmount] for SHORT) is at most -0.5e-8, so a
    loss smaller than half a unit of the 8th decimal is not counted.  With
    a positive [contractAmount], a trade flagged as a loss exited below
    the entry for LONG and above it for SHORT. *)
Theorem closeResult_isLoss_iff :
  forall (p : Position) (reason : CloseReason) (now : Z) (x : Q),
    let r := mkCloseResult p reason now x in
    let raw := match ptype p with
               | LONG => (x - entryPrice p) * contractAmount p
               | SHORT => (entryPrice p - x) * contractAmount p
               end in
    pnl r = fixedNumber raw /\
    (isLoss r = true <-> raw <= - (1 # 2 * PRECISION_SCALE)) /\
    (0 < contractAmount p -> isLoss r = true ->
     match ptype p with LONG => x < entryPrice p | SHORT => entryPrice p < x end).
Proof.
  intros p reason now x; cbv zeta.
  assert (Hp : pnl (mkCloseResult p reason now x) =
               fixedNumber match ptype p with
                           | LONG => (x - entryPrice p) * contractAmount p
                           | SHORT => (entryPrice p - x) * contractAmount p
                           end).
  { unfold mkCloseResult, calculatePnL; simpl; destruct (ptype p); reflexivity. }
  assert (Hl : isLoss (mkCloseResult p reason now x) = true <->
               match ptype p with
               | LONG => (x - entryPrice p) * contractAmount p
               | SHORT => (entryPrice p - x) * contractAmount p
               end <= - (1 # 2 * PRECISION_SCALE)).
  { unfold mkCloseResult; cbn [isLoss]; rewrite Qlt_bool_iff.
    fold (calculatePnL p x) in *.
    change (calculatePnL p x) with (pnl (mkCloseResult p reason now x)).
    rewrite Hp; apply fixedNumber_neg_iff. }
  split; [exact Hp|]; split; [exact Hl|].
  intros Ha Hloss; apply Hl in Hloss.
  change (1 # 2 * PRECISION_SCALE) with (1 # 200000000) in Hloss.
  destruct (ptype p).
  - destruct (Qlt_le_dec x (entryPrice p)) as [H|H]; [exact H|].
    assert (0 <= (x - entryPrice p) * contractAmount p) by (apply Qmult_le_0_compat; lra); lra.
  - destruct (Qlt_le_dec (entryPrice p) x) as [H|H]; [exact H|].
    assert (0 <= (entryPrice p - x) * contractAmount p) by (apply Qmult_le_0_compat; lra); lra.
Qed.

End PnLProofs.

Module EntryExtra.
Import PositionManager EntryProofs RoundingProofs.

Lemma find_split {A} (f : A -> bool) (l : list A) (r : A) :
  find f l = Some r -> exists xs ys, l = xs ++ r :: ys /\ Forall (fun x => f x = false) xs.
Proof.
  induction l as [|a l IH]; simpl; [discriminate|].
  destruct (f a) eqn:Ea.
  - intro H; injection H as <-; exists [], l; split; [reflexivity | constructor].
  - intro H; destruct (IH H) as (xs & ys & -> & Hf).
    exists (a :: xs), ys; split; [reflexivity | constructor; assumption].
Qed.

Lemma ssorted_before {A} (R : A -> A -> Prop) (a : list A) (r : A) (b : list A) :
  StronglySorted R (a ++ r :: b) -> forall x, In x a -> R x r.
Proof.
  induction a as [|y a IH]; intros Hs x Hin; [destruct Hin|].
  inversion Hs as [|? ? Hs' Hall]; subst.
  destruct Hin as [<-|Hin].
  - rewrite Forall_forall in Hall; apply Hall, in_or_app; right; left; reflexivity.
  - exact (IH Hs' x Hin).
Qed.

(** What [findNextLevel price levels down] returns: the greatest level
    strictly below [price], or nothing when no level lies strictly below. *)
Lemma findNextLevel_down_spec (price : Q) (levels : list PriceLevel) :
  match findNextLevel price levels down with
  | Some r =>
      In r levels /\ lvl_price r < price /\
      (forall r', In r' levels -> lvl_price r' < price -> lvl_price r' <= lvl_price r)
  | None => forall r', In r' levels -> price <= lvl_price r'
  end.
Proof.
  unfold findNextLevel.
  pose proof (PriceLevelSort.Permuted_sort levels) as Hp.
  pose proof (sort_strongly_sorted levels) as Hs.
  destruct (find _ (rev (PriceLevelSort.sort levels))) as [r|] eqn:Hf.
  - destruct (find_some _ _ Hf) as [Hin Hlt].
    apply Qlt_bool_iff in Hlt; rewrite <- in_rev in Hin.
    split; [apply (Permutation_in _ (Permutation_sym Hp)); exact Hin|]; split; [exact Hlt|].
    intros r' Hin' Hlt'.
    apply (Permutation_in _ Hp) in Hin'.
    destruct (find_split _ _ _ Hf) as (xs & ys & Hsplit & Hxs).
    assert (Hsort : PriceLevelSort.sort levels = rev ys ++ r :: rev xs).
    { rewrite <- (rev_involutive (PriceLevelSort.sort levels)), Hsplit.
      rewrite rev_app_distr; simpl; rewrite <- app_assoc; reflexivity. }
    rewrite Hsort in Hin', Hs.
    apply in_app_or in Hin'; destruct Hin' as [Hin'|[<-|Hin']].
    + pose proof (ssorted_before _ _ _ _ Hs r' Hin') as Hle.
      unfold is_true, PriceLevelOrder.leb in Hle; apply Qle_bool_iff; exact Hle.
    + apply Qle_refl.
    + rewrite <- in_rev in Hin'; rewrite Forall_forall in Hxs.
      specialize (Hxs r' Hin'); simpl in Hxs.
      apply Qlt_bool_iff in Hlt'; congruence.
  - intros r' Hin.
    apply (Permutation_in _ Hp) in Hin; rewrite in_rev in Hin.
    pose proof (find_none _ _ Hf r' Hin) as Hn; simpl in Hn.
    destruct (Qlt_le_dec (lvl_price r') price) as [Hlt|Hle]; [|exact Hle].
    apply Qlt_bool_iff in Hlt; congruence.
Qed.

(** [findNextLevel] looks for the nearest level on either side of the
    price: going up it returns the least level strictly above the price,
    going down the greatest level strictly below it; it returns nothing
    exactly when no level lies strictly on that side. *)
Theorem findNextLevel_nearest :
  forall (price : Q) (levels : list PriceLevel),
    match findNextLevel price levels up with
    | Some r =>
        In r levels /\ price < lvl_price r /\
        (forall r', In r' levels -> price < lvl_price r' -> lvl_price r <= lvl_price r')
    | None => forall r', In r' levels -> lvl_price r' <= price
    end /\
    match findNextLevel price levels down with
    | Some r =>
        In r levels /\ lvl_price r < price /\
        (forall r', In r' levels -> lvl_price r' < price -> lvl_price r' <= lvl_price r)
    | None => forall r', In r' levels -> price <= lvl_price r'
    end.
Proof.
  intros price levels; split; [apply findNextLevel_up_spec | apply findNextLevel_down_spec].
Qed.

(** [isLevelHit]: for a positive level, the price is within the band
    [level * (1 - 0.001), level * (1 + 0.001)]; a zero level is never hit;
    a negative level is hit by every price (the relative distance divided
    by a negative level is never above 0.001). *)
Theorem isLevelHit_band :
  forall price level : Q,
    (level == 0 -> isLevelHit price level = false) /\
    (0 < level ->
     (isLevelHit price level = true <->
      level * (1 - MIN_DISTANCE) <= price /\ price <= level * (1 + MIN_DISTANCE))) /\
    (level < 0 -> isLevelHit price level = true).
Proof.
  intros price level; unfold isLevelHit, MIN_DISTANCE.
  split; [|split].
  - intro H0; apply Qeq_bool_iff in H0; rewrite H0; reflexivity.
  - intro Hpos.
    destruct (Qeq_bool level 0) eqn:E0; [apply Qeq_bool_iff in E0; lra|].
    rewrite Qle_bool_iff.
    assert (Hdiv : Qabs (price - level) / level <= 0.001 <-> Qabs (price - level) <= 0.001 * level).
    { split; intro H.
      - assert (Heq : Qabs (price - level) == (Qabs (price - level) / level) * level)
          by (field; intro; lra).
        rewrite Heq; apply Qmult_le_compat_r; lra.
      - apply Qle_shift_div_r; [exact Hpos | exact H]. }
    rewrite Hdiv, Qabs_Qle_condition; split; intros [H1 H2]; split; lra.
  - intro Hneg.
    destruct (Qeq_bool level 0) eqn:E0; [apply Qeq_bool_iff in E0; lra|].
    apply Qle_bool_iff.
    assert (Heq : Qabs (price - level) / level == - (Qabs (price - level) / (- level)))
      by (field; intro; lra).
    assert (Hnn : 0 <= Qabs (price - level) / (- level)).
    { apply Qle_shift_div_l; [lra|]. rewrite Qmult_0_l; apply Qabs_nonneg. }
    rewrite Heq; lra.
Qed.

Lemma checkEntryConditions_cases (s : Store) (price : Q) (la : LevelAnalysis) :
  checkEntryConditions s price (Some la) =
    match hitIn price (flatten (holdLevels la)),
          findNextLevel price (flatten (resistanceLevels la)) up with
    | Some _, Some r => Some (createEntrySignal s LONG price r)
    | _, _ =>
        match hitIn price (flatten (resistanceLevels la)),
              findNextLevel price (flatten (holdLevels la)) down with
        | Some _, Some sup => Some (createEntrySignal s SHORT price sup)
        | _, _ => None
        end
    end.
Proof.
  unfold checkEntryConditions; rewrite !scanLevels_const.
  destruct (hitIn price (flatten (holdLevels la)));
    destruct (findNextLevel price (flatten (resistanceLevels la)) up); try reflexivity;
    destruct (hitIn price (flatten (resistanceLevels la)));
    destruct (findNextLevel price (flatten (holdLevels la)) down); reflexivity.
Qed.

Lemma hitIn_none_iff (price : Q) (ls : list PriceLevel) :
  hitIn price ls = None <-> forall l, In l ls -> isLevelHit price (lvl_price l) = false.
Proof.
  unfold hitIn; split.
  - intros H l Hin; exact (find_none _ _ H l Hin).
  - induction ls as [|x ls IH]; intros H; [reflexivity|]; cbn.
    rewrite (H x (or_introl eq_refl)); apply IH; intros l Hin; apply H; right; exact Hin.
Qed.

(** How [checkEntryConditions] decides, whatever the order of the levels
    within the scans: with no levels it gives nothing; otherwise it gives a
    LONG signal when some support is hit and some resistance lies strictly
    above the price (the nearest one is the target), else a SHORT signal
    when some resistance is hit and some support lies strictly below the
    price (the nearest one, i.e. the greatest support below, is the
    target), else nothing.  Which support or resistance was hit does not
    matter.  The statement spells out [hitIn] (some level of the list is
    hit) and [findNextLevel] in both directions. *)
Theorem checkEntryConditions_decision :
  forall (s : Store) (price : Q) (levels : option LevelAnalysis),
    match levels with
    | None => checkEntryConditions s price levels = None
    | Some la =>
        let supports := flatten (holdLevels la) in
        let resistances := flatten (resistanceLevels la) in
        checkEntryConditions s price levels =
          match hitIn price supports, findNextLevel price resistances up with
          | Some _, Some r => Some (createEntrySignal s LONG price r)
          | _, _ =>
              match hitIn price resistances, findNextLevel price supports down with
              | Some _, Some sup => Some (createEntrySignal s SHORT price sup)
              | _, _ => None
              end
          end /\
        (hitIn price supports = None <->
           forall l, In l supports -> isLevelHit price (lvl_price l) = false) /\
        (hitIn price resistances = None <->
           forall l, In l resistances -> isLevelHit price (lvl_price l) = false) /\
        match findNextLevel price resistances up with
        | Some r =>
            In r resistances /\ price < lvl_price r /\
            (forall r', In r' resistances -> price < lvl_price r' -> lvl_price r <= lvl_price r')
        | None => forall r', In r' resistances -> lvl_price r' <= price
        end /\
        match findNextLevel price supports down with
        | Some sup =>
            In sup supports /\ lvl_price sup < price /\
            (forall r', In r' supports -> lvl_price r' < price -> lvl_price r' <= lvl_price sup)
        | None => forall r', In r' supports -> price <= lvl_price r'
        end
    end.
Proof.
  intros s price [la|]; [|reflexivity]; cbv zeta.
  split; [apply checkEntryConditions_cases|].
  split; [apply hitIn_none_iff|]; split; [apply hitIn_none_iff|].
  split; [apply findNextLevel_up_spec | apply findNextLevel_down_spec].
Qed.

(** Every entry signal has the price rounded to 8 decimals, and its target
    on the winning side of it: at or above it for LONG, at or below it for
    SHORT (the target is strictly beyond the price before rounding). *)
Theorem entry_signal_target_side :
  forall (s : Store) (price : Q) (levels : option LevelAnalysis) (sg : EntrySignal),
    checkEntryConditions s price levels = Some sg ->
    sprice sg = fixedNumber price /\
    match stype sg with
    | LONG => sprice sg <= nextLevel sg
    | SHORT => nextLevel sg <= sprice sg
    end.
Proof.
  intros s price [la|] sg H; [|discriminate].
  rewrite checkEntryConditions_cases in H.
  pose proof (findNextLevel_up_spec price (flatten (resistanceLevels la))) as Hup.
  pose proof (findNextLevel_down_spec price (flatten (holdLevels la))) as Hdown.
  assert (Hshort : forall sup, findNextLevel price (flatten (holdLevels la)) down = Some sup ->
            sg = createEntrySignal s SHORT price sup ->
            sprice sg = fixedNumber price /\ nextLevel sg <= sprice sg).
  { intros sup Hd ->; rewrite Hd in Hdown; destruct Hdown as (_ & Hlt & _).
    split; [reflexivity|]; apply fixedNumber_mono_all; lra. }
  destruct (hitIn price (flatten (holdLevels la)));
    destruct (findNextLevel price (flatten (resistanceLevels la)) up) as [r|] eqn:Hu.
  - injection H as <-; destruct Hup as (_ & Hlt & _).
    split; [reflexivity|]; apply fixedNumber_mono_all; lra.
  - destruct (hitIn price (flatten (resistanceLevels la))); [|discriminate].
    destruct (findNextLevel price (flatten (holdLevels la)) down) as [sup|] eqn:Hd; [|discriminate].
    injection H as <-; exact (Hshort sup eq_refl eq_refl).
  - destruct (hitIn price (flatten (resistanceLevels la))); [|discriminate].
    destruct (findNextLevel price (flatten (holdLevels la)) down) as [sup|] eqn:Hd; [|discriminate].
    injection H as <-; exact (Hshort sup eq_refl eq_refl).
  - destruct (hitIn price (flatten (resistanceLevels la))); [|discriminate].
    destruct (findNextLevel price (flatten (holdLevels la)) down) as [sup|] eqn:Hd; [|discriminate].
    injection H as <-; exact (Hshort sup eq_refl eq_refl).
Qed.

Definition sample_levels : LevelAnalysis :=
  mkLevelAnalysis (mkTimeframeLevels [mkPriceLevel 100.05 0] [] [] [])
                  (mkTimeframeLevels [mkPriceLevel 102 0; mkPriceLevel 105 0] [] [] []).

Lemma entry_signal_target_side_witness :
  checkEntryConditions TradingStateManager.init 100 (Some sample_levels) =
    Some (createEntrySignal TradingStateManager.init LONG 100 (mkPriceLevel 102 0)) /\
  (sprice (createEntrySignal TradingStateManager.init LONG 100 (mkPriceLevel 102 0)) = fixedNumber 100 /\
   match stype (createEntrySignal TradingStateManager.init LONG 100 (mkPriceLevel 102 0)) with
   | LONG => sprice (createEntrySignal TradingStateManager.init LONG 100 (mkPriceLevel 102 0)) <=
             nextLevel (createEntrySignal TradingStateManager.init LONG 100 (mkPriceLevel 102 0))
   | SHORT => nextLevel (createEntrySignal TradingStateManager.init LONG 100 (mkPriceLevel 102 0)) <=
              sprice (createEntrySignal TradingStateManager.init LONG 100 (mkPriceLevel 102 0))
   end).
Proof.
  split; [vm_compute; reflexivity|].
  apply (entry_signal_target_side TradingStateManager.init 100 (Some sample_levels)).
  vm_compute; reflexivity.
Defined.

End EntryExtra.

Module StopExtra.
Import PositionManager TradingStateManager.

Lemma exit_none_iff (p : Position) (price : Q) :
  checkExitConditions p price = mkExitCheck false None <->
  match ptype p with
  | LONG => stopLoss p < price /\ price < takeProfit p
  | SHORT => takeProfit p < price /\ price < stopLoss p
  end.
Proof.
  unfold checkExitConditions; destruct (ptype p);
    repeat qcase_bool; split; intro Hx; try discriminate; try lra; try reflexivity;
    try (split; assumption).
Qed.

Lemma updateStopLoss_stored (now : Z) (newStop : Q) (s : Store) (p : Position) :
  currentPosition (mem s) = Some p ->
  currentPosition (mem (updateStopLoss now newStop s)) =
    Some (mkPosition (ptype p) (entryPrice p) (size p) (contractAmount p) (leverage p) newStop
            (takeProfit p) (entryTime p) (orderId p)
            (updates p ++ [mkPositionUpdate now stop_update (stopLoss p) newStop])).
Proof.
  intro H; unfold updateStopLoss, getCurrentPosition; rewrite H; reflexivity.
Qed.

(** The trailing stop never closes a position at the price it was computed
    at: when a positive price does not trigger an exit of the stored
    position, the position stored by [updateStopLoss] with
    [calculateTrailingStop] at that price does not trigger one either. *)
Theorem trailing_update_no_retrigger :
  forall (now : Z) (price : Q) (s : Store) (p : Position),
    currentPosition (mem s) = Some p -> 0 < price ->
    checkExitConditions p price = mkExitCheck false None ->
    exists p',
      currentPosition (mem (updateStopLoss now (calculateTrailingStop p price) s)) = Some p' /\
      stopLoss p' = calculateTrailingStop p price /\
      checkExitConditions p' price = mkExitCheck false None.
Proof.
  intros now price s p Hs Hpos Hex.
  eexists; split; [apply updateStopLoss_stored; exact Hs|]; split; [reflexivity|].
  apply exit_none_iff in Hex; apply exit_none_iff; cbn [ptype stopLoss takeProfit].
  unfold calculateTrailingStop, js_max, js_min, stopDistance.
  destruct (ptype p); repeat qcase_bool; split; lra.
Qed.

Lemma trailing_update_no_retrigger_witness :
  currentPosition (mem (setCurrentPosition (mkPosition LONG 100 200 2 20 99.84 102 0 None []) init)) =
    Some (mkPosition LONG 100 200 2 20 99.84 102 0 None []) /\
  0 < 101 /\
  checkExitConditions (mkPosition LONG 100 200 2 20 99.84 102 0 None []) 101 = mkExitCheck false None /\
  exists p',
    currentPosition (mem (updateStopLoss 1
      (calculateTrailingStop (mkPosition LONG 100 200 2 20 99.84 102 0 None []) 101)
      (setCurrentPosition (mkPosition LONG 100 200 2 20 99.84 102 0 None []) init))) = Some p' /\
    stopLoss p' = calculateTrailingStop (mkPosition LONG 100 200 2 20 99.84 102 0 None []) 101 /\
    checkExitConditions p' 101 = mkExitCheck false None.
Proof.
  split; [reflexivity|]; split; [reflexivity|]; split; [vm_compute; reflexivity|].
  apply trailing_update_no_retrigger; [reflexivity | reflexivity | vm_compute; reflexivity].
Defined.

(** The audit trail of a position: [stop_update] records, each starting
    where the previous one ended, the last one ending at the current stop. *)
Fixpoint stopChain (us : list PositionUpdate) (stop : Q) : Prop :=
  match us with
  | [] => True
  | u :: rest =>
      upd_type u = stop_update /\
      match rest with
      | [] => newValue u = stop
      | v :: _ => newValue u = oldValue v
      end /\
      stopChain rest stop
  end.

Lemma stopChain_snoc (us : list PositionUpdate) (stop newStop : Q) (now : Z) :
  stopChain us stop -> stopChain (us ++ [mkPositionUpdate now stop_update stop newStop]) newStop.
Proof.
  induction us as [|u rest IH]; intro H; simpl.
  - repeat split.
  - destruct H as (Ht & Hn & Hr); split; [exact Ht|]; split; [|exact (IH Hr)].
    destruct rest as [|v rest']; simpl; [exact Hn | exact Hn].
Qed.

Definition applyStopUpdates (us : list (Z * Q)) (s : Store) : Store :=
  fold_left (fun s u => updateStopLoss (fst u) (snd u) s) us s.

Lemma applyStopUpdates_chain (us : list (Z * Q)) (s : Store) (p : Position) :
  currentPosition (mem s) = Some p -> stopChain (updates p) (stopLoss p) ->
  exists p',
    currentPosition (mem (applyStopUpdates us s)) = Some p' /\
    stopChain (updates p') (stopLoss p') /\
    map newValue (updates p') = map newValue (updates p) ++ map snd us /\
    ptype p' = ptype p /\ entryPrice p' = entryPrice p /\ contractAmount p' = contractAmount p /\
    takeProfit p' = takeProfit p.
Proof.
  revert s p; induction us as [|[now ns] rest IH]; intros s p Hs Hc.
  - exists p; simpl; rewrite app_nil_r; repeat split; assumption.
  - simpl; fold (applyStopUpdates rest (updateStopLoss now ns s)).
    pose proof (updateStopLoss_stored now ns s p Hs) as Hs'.
    destruct (IH _ _ Hs') as (p' & H1 & H2 & H3 & H4 & H5 & H6 & H7); cbn in *;
      [apply stopChain_snoc; exact Hc|].
    exists p'; split; [exact H1|]; split; [exact H2|].
    rewrite H3, map_app, <- app_assoc; repeat split; assumption.
Qed.

(** Starting from a freshly opened position (no update records), any
    sequence of [updateStopLoss] calls keeps the stored position's audit
    trail consistent: one [stop_update] record per call, carrying the
    requested stops in order, each record's old value being the previous
    record's new value, the last new value being the current stop; side,
    entry, amount and take-profit are untouched. *)
Theorem updateStopLoss_audit_trail :
  forall (us : list (Z * Q)) (s : Store) (p : Position),
    currentPosition (mem s) = Some p -> updates p = [] ->
    exists p',
      currentPosition (mem (applyStopUpdates us s)) = Some p' /\
      stopChain (updates p') (stopLoss p') /\
      map newValue (updates p') = map snd us /\
      List.length (updates p') = List.length us /\
      (forall u, In u (updates p') -> upd_type u = stop_update) /\
      ptype p' = ptype p /\ entryPrice p' = entryPrice p /\ contractAmount p' = contractAmount p /\
      takeProfit p' = takeProfit p.
Proof.
  intros us s p Hs Hu.
  destruct (applyStopUpdates_chain us s p Hs) as (p' & H1 & H2 & H3 & H4 & H5 & H6 & H7);
    [rewrite Hu; exact I|].
  rewrite Hu in H3; simpl in H3.
  exists p'; split; [exact H1|]; split; [exact H2|]; split; [exact H3|]; split.
  - rewrite <- (length_map newValue), H3, length_map; reflexivity.
  - split; [|repeat split; assumption].
    clear -H2; revert H2; generalize (stopLoss p'); induction (updates p') as [|v rest IH];
      intros st Hc u Hin; [destruct Hin|].
    destruct Hc as (Ht & _ & Hr); destruct Hin as [<-|Hin]; [exact Ht | exact (IH st Hr u Hin)].
Qed.

Lemma updateStopLoss_audit_trail_witness :
  currentPosition (mem (setCurrentPosition (mkPosition LONG 100 200 2 20 99.84 102 0 None []) init)) =
    Some (mkPosition LONG 100 200 2 20 99.84 102 0 None []) /\
  updates (mkPosition LONG 100 200 2 20 99.84 102 0 None []) = [] /\
  exists p',
    currentPosition (mem (applyStopUpdates [(1%Z, 99.9); (2%Z, 100.5)]
      (setCurrentPosition (mkPosition LONG 100 200 2 20 99.84 102 0 None []) init))) = Some p' /\
    stopChain (updates p') (stopLoss p') /\
    map newValue (updates p') = map snd [(1%Z, 99.9); (2%Z, 100.5)] /\
    List.length (updates p') = List.length [(1%Z, 99.9); (2%Z, 100.5)] /\
    (forall u, In u (updates p') -> upd_type u = stop_update) /\
    ptype p' = ptype (mkPosition LONG 100 200 2 20 99.84 102 0 None []) /\
    entryPrice p' = entryPrice (mkPosition LONG 100 200 2 20 99.84 102 0 None []) /\
    contractAmount p' = contractAmount (mkPosition LONG 100 200 2 20 99.84 102 0 None []) /\
    takeProfit p' = takeProfit (mkPosition LONG 100 200 2 20 99.84 102 0 None []).
Proof.
  split; [reflexivity|]; split; [reflexivity|].
  apply (updateStopLoss_audit_trail [(1%Z, 99.9); (2%Z, 100.5)]); reflexivity.
Defined.

End StopExtra.

Module OpenExtra.
Import PositionManager.

(** The entry order [openPosition] places: a LIMIT order on the signal's
    side at the signal's price, with leverage 20 and no reduce-only flag. *)
Definition entryOrder (sig : EntrySignal) (amt : Q) : OrderParams :=
  mkOrderParams LIMIT (orderSideOf (stype sig)) amt (Some (sprice sig)) (Some LEVERAGE) None.

(** The calls of one [openPosition] after the optional open-orders query:
    nothing, a failed ticker fetch, or the ticker fetch and one entry
    order for at least [MIN_AMOUNT]. *)
Definition entryCalls (sig : EntrySignal) (post : list ExchangeCall) : Prop :=
  post = [CallFetchTicker] \/
  exists amt, MIN_AMOUNT <= amt /\ post = [CallFetchTicker; CallCreateOrder (entryOrder sig amt)].

Definition openedOk (now : Z) (sig : EntrySignal) (post : list ExchangeCall) (p : Position) : Prop :=
  post = [CallFetchTicker; CallCreateOrder (entryOrder sig (contractAmount p))] /\
  MIN_AMOUNT <= contractAmount p /\
  (exists id, orderId p = Some id) /\
  leverage p = LEVERAGE /\ updates p = [] /\ entryTime p = now /\
  ((contractAmount p = MIN_AMOUNT /\ size p = fixedNumber (MIN_AMOUNT * sprice sig)) \/
   size p = ssize sig).

Lemma Qlt_bool_false (a b : Q) : Qlt_bool a b = false -> b <= a.
Proof.
  unfold Qlt_bool; intro H; apply negb_false_iff, Qle_bool_iff in H; exact H.
Qed.

Lemma openPosition_unthrottled (now : Z) (sig : EntrySignal) (e : Env) :
  exists post,
    calls (snd (openPosition false now sig e)) = calls e ++ post /\ entryCalls sig post /\
    match fst (openPosition false now sig e) with
    | Some p => openedOk now sig post p
    | None => True
    end.
Proof.
  destruct e as [rs log].
  unfold openPosition, bind, ret, throw, fetchTicker, createOrder, next_reply, record_call;
    cbn -[fixedNumber Qlt_bool Qdiv Qmult app].
  destruct rs as [|r rs]; cbn -[fixedNumber Qlt_bool Qdiv Qmult app];
    [exists [CallFetchTicker]; split; [reflexivity|]; split; [left; reflexivity | exact I]|].
  destruct r as [last| | |]; cbn -[fixedNumber Qlt_bool Qdiv Qmult app];
    try (exists [CallFetchTicker]; split; [reflexivity|]; split; [left; reflexivity | exact I]).
  destruct (Qlt_bool (fixedNumber (ssize sig / fixedNumber last)) MIN_AMOUNT) eqn:Hm.
  - exists [CallFetchTicker; CallCreateOrder (entryOrder sig MIN_AMOUNT)].
    destruct rs as [|[] rs']; cbn -[fixedNumber Qlt_bool Qdiv Qmult app];
      (split; [cbn; rewrite <- app_assoc; reflexivity|]);
      (split; [right; exists MIN_AMOUNT; split; [apply Qle_refl | reflexivity]|]);
      try exact I.
    repeat split; try reflexivity; try apply Qle_refl.
    + eexists; reflexivity.
    + left; split; reflexivity.
  - apply Qlt_bool_false in Hm.
    exists [CallFetchTicker; CallCreateOrder (entryOrder sig (fixedNumber (ssize sig / fixedNumber last)))].
    destruct rs as [|[] rs']; cbn -[fixedNumber Qlt_bool Qdiv Qmult app];
      (split; [cbn; rewrite <- app_assoc; reflexivity|]);
      (split; [right; eexists; split; [exact Hm | reflexivity]|]);
      try exact I.
    repeat split; try reflexivity; try exact Hm.
    + eexists; reflexivity.
    + right; reflexivity.
Qed.

(** [openPosition] places at most one order, never retries, and never
    orders less than the 0.001 minimum: after the optional query of the
    open LIMIT orders it either fails to fetch the ticker, or fetches it
    and places exactly one LIMIT entry order (the signal's side and price,
    leverage 20, not reduce-only) for at least 0.001.  A position is
    returned only when that order was accepted; its [contractAmount] is the
    ordered amount (at least 0.001), it carries the order's id, leverage
    20, no update records and the current time, and its [size] is the
    signal's size, or [0.001 * price] rounded when the computed amount was
    raised to the minimum. *)
Theorem openPosition_single_order :
  forall (has : bool) (now : Z) (sig : EntrySignal) (e : Env),
    exists pre post,
      calls (snd (openPosition has now sig e)) = calls e ++ pre ++ post /\
      (pre = [] \/ pre = [CallGetOpenLimitOrders (orderSideOf (stype sig))]) /\
      (post = [] \/ entryCalls sig post) /\
      match fst (openPosition has now sig e) with
      | Some p => openedOk now sig post p
      | None => True
      end.
Proof.
  intros [|] now sig e.
  - destruct e as [rs log].
    destruct rs as [|[| |n|] rs];
      try (exists [CallGetOpenLimitOrders (orderSideOf (stype sig))], [];
           split; [reflexivity|]; split; [right; reflexivity|]; split; [left; reflexivity | exact I]).
    destruct (Nat.leb 4 n) eqn:Hn.
    + exists [CallGetOpenLimitOrders (orderSideOf (stype sig))], [].
      unfold openPosition, bind, throw, getOpenLimitOrders, next_reply; cbn -[fixedNumber Qlt_bool Qdiv Qmult app Nat.leb openPosition].
      rewrite Hn; split; [rewrite app_nil_r; reflexivity|]; split; [right; reflexivity|].
      split; [left; reflexivity | exact I].
    + assert (Hred : openPosition true now sig (mkEnv (ROpenOrders n :: rs) log) =
                     openPosition false now sig
                       (mkEnv rs (log ++ [CallGetOpenLimitOrders (orderSideOf (stype sig))]))).
      { unfold openPosition at 1, bind at 1, getOpenLimitOrders, next_reply; cbn -[fixedNumber Qlt_bool Qdiv Qmult app Nat.leb openPosition].
        rewrite Hn; reflexivity. }
      rewrite Hred.
      destruct (openPosition_unthrottled now sig
                  (mkEnv rs (log ++ [CallGetOpenLimitOrders (orderSideOf (stype sig))])))
        as (post & Hc & Hk & Hr).
      exists [CallGetOpenLimitOrders (orderSideOf (stype sig))], post.
      split; [rewrite Hc; cbn; rewrite <- app_assoc; reflexivity|].
      split; [right; reflexivity|]; split; [right; exact Hk | exact Hr].
  - destruct (openPosition_unthrottled now sig e) as (post & Hc & Hk & Hr).
    exists [], post; split; [exact Hc|]; split; [left; reflexivity|]; split; [right; exact Hk | exact Hr].
Qed.

Lemma openPosition_throttle_cases (now : Z) (sig : EntrySignal) (n : nat) (rs : list ExchangeReply)
  (log : list ExchangeCall) :
  openPosition true now sig (mkEnv (ROpenOrders n :: rs) log) =
    if Nat.leb 4 n
    then (None, mkEnv rs (log ++ [CallGetOpenLimitOrders (orderSideOf (stype sig))]))
    else openPosition false now sig (mkEnv rs (log ++ [CallGetOpenLimitOrders (orderSideOf (stype sig))])).
Proof.
  unfold openPosition at 1, bind at 1, getOpenLimitOrders, next_reply;
    cbn -[fixedNumber Qlt_bool Qdiv Qmult app Nat.leb openPosition].
  destruct (Nat.leb 4 n); reflexivity.
Qed.

(** The open-order throttle of [openPosition]: when the connector reports
    4 or more open LIMIT orders on the entry side, [openPosition] rejects
    right after the query, without fetching the ticker or placing an
    order; with fewer, it goes on exactly as without the query. *)
Theorem openPosition_open_orders_throttle :
  forall (now : Z) (sig : EntrySignal) (n : nat) (rs : list ExchangeReply) (log : list ExchangeCall),
    ((4 <= n)%nat ->
     openPosition true now sig (mkEnv (ROpenOrders n :: rs) log) =
       (None, mkEnv rs (log ++ [CallGetOpenLimitOrders (orderSideOf (stype sig))]))) /\
    ((n < 4)%nat ->
     openPosition true now sig (mkEnv (ROpenOrders n :: rs) log) =
       openPosition false now sig (mkEnv rs (log ++ [CallGetOpenLimitOrders (orderSideOf (stype sig))]))).
Proof.
  intros now sig n rs log; rewrite openPosition_throttle_cases; split; intro H.
  - apply PeanoNat.Nat.leb_le in H; rewrite H; reflexivity.
  - assert (Nat.leb 4 n = false) as -> by (apply PeanoNat.Nat.leb_gt; exact H); reflexivity.
Qed.

End OpenExtra.

Module RiskExtra.
Import RiskManager.

Lemma handleLoss_iter (today : Z) (r : RiskState) (n : nat) :
  dailyLosses (Nat.iter (S n) (handleLoss today) r) =
    (match lastLossDate r with
     | Some d => if Z.eqb d today then dailyLosses r else 0
     | None => 0
     end + Z.of_nat (S n))%Z /\
  lastLossDate (Nat.iter (S n) (handleLoss today) r) = Some today /\
  initialBalance (Nat.iter (S n) (handleLoss today) r) = initialBalance r.
Proof.
  induction n as [|n IH].
  - change (Nat.iter 1 (handleLoss today) r) with (handleLoss today r).
    unfold handleLoss; cbn [dailyLosses lastLossDate initialBalance].
    destruct (lastLossDate r) as [d|]; [destruct (Z.eqb d today)|]; repeat split; lia.
  - destruct IH as (H1 & H2 & H3).
    change (Nat.iter (S (S n)) (handleLoss today) r)
      with (handleLoss today (Nat.iter (S n) (handleLoss today) r)).
    set (x := Nat.iter (S n) (handleLoss today) r) in *.
    unfold handleLoss; cbn [dailyLosses lastLossDate initialBalance].
    rewrite H2, Z.eqb_refl, H1, H3; repeat split; lia.
Qed.

(** [handleLoss] counts the losses of the current day: [n + 1] losses in a
    row on one day add [n + 1] to the count when the last recorded loss was
    on that same day, and set it to [n + 1] otherwise (first loss ever, or
    a loss on a new day); the last loss date becomes that day and the
    drawdown baseline is untouched. *)
Theorem handleLoss_daily_count :
  forall (today : Z) (r : RiskState) (n : nat),
    let r' := Nat.iter (S n) (handleLoss today) r in
    dailyLosses r' =
      (match lastLossDate r with
       | Some d => if Z.eqb d today then dailyLosses r else 0
       | None => 0
       end + Z.of_nat (S n))%Z /\
    lastLossDate r' = Some today /\
    initialBalance r' = initialBalance r.
Proof. intros today r n; exact (handleLoss_iter today r n). Qed.

(** [canOpenPosition] answers from the loss count alone: it allows an
    opening exactly when [dailyLosses < maxDailyLosses], whatever the day.
    A refusal changes nothing; an allowed call either changes nothing or,
    when the last loss was on another day, resets the count to 0 and
    forgets the date.  It never raises the count and never touches the
    drawdown baseline. *)
Theorem canOpenPosition_count_only :
  forall (maxDailyLosses today : Z) (r : RiskState),
    let (ok, r') := canOpenPosition maxDailyLosses today r in
    ok = Z.ltb (dailyLosses r) maxDailyLosses /\
    (ok = false -> r' = r) /\
    (r' = r \/
     (exists d, lastLossDate r = Some d /\ d <> today /\ r' = mkRiskState 0 None (initialBalance r))) /\
    initialBalance r' = initialBalance r.
Proof.
  intros maxDailyLosses today r; unfold canOpenPosition.
  destruct (Z.leb maxDailyLosses (dailyLosses r)) eqn:E.
  - apply Z.leb_le in E.
    assert (Z.ltb (dailyLosses r) maxDailyLosses = false) as -> by (apply Z.ltb_ge; lia).
    repeat split; auto.
  - apply Z.leb_gt in E.
    assert (Z.ltb (dailyLosses r) maxDailyLosses = true) as -> by (apply Z.ltb_lt; lia).
    destruct (lastLossDate r) as [d|] eqn:Ed.
    + destruct (Z.eqb d today) eqn:Et.
      * repeat split; auto; discriminate.
      * apply Z.eqb_neq in Et; repeat split; try discriminate.
        right; exists d; repeat split; auto.
    + repeat split; auto; discriminate.
Qed.

(** [checkDrawdown] with the baseline set by [initialize(balance)]: a zero
    baseline (like a missing one) disables the check; with a positive
    baseline the check passes exactly when the current balance is at least
    [balance * (1 - maxDrawdown)]. *)
Theorem checkDrawdown_threshold :
  forall (maxDrawdown currentBalance balance : Q) (r : RiskState),
    (initialBalance r = None -> checkDrawdown maxDrawdown currentBalance r = true) /\
    (balance == 0 -> checkDrawdown maxDrawdown currentBalance (initialize balance r) = true) /\
    (0 < balance ->
     (checkDrawdown maxDrawdown currentBalance (initialize balance r) = true <->
      balance * (1 - maxDrawdown) <= currentBalance)).
Proof.
  intros m cur b r; split; [|split].
  - intro H; unfold checkDrawdown; rewrite H; reflexivity.
  - intro H; unfold checkDrawdown, initialize; cbn [initialBalance].
    apply Qeq_bool_iff in H; rewrite H; reflexivity.
  - intro Hpos; unfold checkDrawdown, initialize; cbn [initialBalance].
    destruct (Qeq_bool b 0) eqn:E0; [apply Qeq_bool_iff in E0; lra|].
    rewrite Qle_bool_iff; split; intro H.
    + assert (Heq : b - cur == ((b - cur) / b) * b) by (field; intro; lra).
      assert (b - cur <= m * b) by (rewrite Heq; apply Qmult_le_compat_r; lra).
      lra.
    + apply Qle_shift_div_r; [exact Hpos | lra].
Qed.

End RiskExtra.

Module StakeExtra.
Import TradingStateManager StakeProofs.

(** [qcase_bool] on an innermost comparison first. *)
Ltac qcase_bool_inner :=
  match goal with
  | |- context [Qle_bool ?a ?b] =>
      lazymatch constr:((a, b)) with
      | context [Qle_bool _ _] => fail
      | _ =>
          let E := fresh "E" in
          destruct (Qle_bool a b) eqn:E;
          [apply Qle_bool_iff in E
          | assert (b < a) by (apply Qnot_le_lt; intro; rewrite <- Qle_bool_iff in *; congruence)]
      end
  end.

Lemma js_min_Qeq (a b c d : Q) : a == c -> b == d -> js_min a b == js_min c d.
Proof.
  intros H1 H2; unfold js_min.
  destruct (Qle_bool a b) eqn:E1, (Qle_bool c d) eqn:E2; [assumption | exfalso | exfalso | assumption].
  - apply Qle_bool_iff in E1; assert (Hx : c <= d) by lra; apply Qle_bool_iff in Hx; congruence.
  - apply Qle_bool_iff in E2; assert (Hx : a <= b) by lra; apply Qle_bool_iff in Hx; congruence.
Qed.

Lemma js_max_Qeq (a b c d : Q) : a == c -> b == d -> js_max a b == js_max c d.
Proof.
  intros H1 H2; unfold js_max.
  destruct (Qle_bool b a) eqn:E1, (Qle_bool d c) eqn:E2; [assumption | exfalso | exfalso | assumption].
  - apply Qle_bool_iff in E1; assert (Hx : d <= c) by lra; apply Qle_bool_iff in Hx; congruence.
  - apply Qle_bool_iff in E2; assert (Hx : b <= a) by lra; apply Qle_bool_iff in Hx; congruence.
Qed.

Lemma nextStake_Qeq (o : TradeOutcome) (a b : Q) : a == b -> nextStake o a == nextStake o b.
Proof.
  intro H; destruct o; simpl; [apply js_min_Qeq | apply js_max_Qeq]; try reflexivity; rewrite H; reflexivity.
Qed.

Lemma stake_after (o : TradeOutcome) (s : Store) :
  currentStakePercentage (mem (adjustStakePercentage o s)) = nextStake o (currentStakePercentage (mem s)).
Proof. reflexivity. Qed.

(** A WIN followed by a LOSS gives back the stake it started from when that
    stake was at most 8, and 8 otherwise (the doubling was capped at 16);
    a LOSS followed by a WIN gives back a stake of at least 4, and 4 from a
    smaller one (the halving was floored at 2); within the bounds [2, 16]
    kept by [adjustStakePercentage]. *)
Theorem stake_win_loss_roundtrip :
  forall s : Store,
    let x := currentStakePercentage (mem s) in
    2 <= x <= 16 ->
    currentStakePercentage (mem (adjustStakePercentage LOSS (adjustStakePercentage WIN s))) ==
      (if Qle_bool x 8 then x else 8) /\
    currentStakePercentage (mem (adjustStakePercentage WIN (adjustStakePercentage LOSS s))) ==
      (if Qle_bool 4 x then x else 4).
Proof.
  intros s x [H1 H2]; rewrite !stake_after; fold x; unfold nextStake, js_min, js_max, Qdiv.
  change (/ 2) with (1 # 2).
  split; repeat qcase_bool_inner; lra.
Qed.

Lemma stake_win_loss_roundtrip_witness :
  2 <= currentStakePercentage (mem init) <= 16 /\
  currentStakePercentage (mem (adjustStakePercentage LOSS (adjustStakePercentage WIN init))) ==
    (if Qle_bool (currentStakePercentage (mem init)) 8 then currentStakePercentage (mem init) else 8) /\
  currentStakePercentage (mem (adjustStakePercentage WIN (adjustStakePercentage LOSS init))) ==
    (if Qle_bool 4 (currentStakePercentage (mem init)) then currentStakePercentage (mem init) else 4).
Proof.
  split; [vm_compute; split; discriminate|].
  apply (stake_win_loss_roundtrip init); vm_compute; split; discriminate.
Defined.

(** The stakes reachable from the initial 6.0. *)
Definition stakeGrid : list Q := [2; 3; 4; 6; 8; 12; 16].

Lemma stakeGrid_closed :
  forallb (fun v => forallb (fun o => existsb (fun w => Qeq_bool (nextStake o v) w) stakeGrid)
                      [WIN; LOSS]) stakeGrid = true.
Proof. vm_compute; reflexivity. Qed.

Lemma stakeGrid_step (o : TradeOutcome) (x : Q) :
  (exists v, In v stakeGrid /\ x == v) -> exists w, In w stakeGrid /\ nextStake o x == w.
Proof.
  intros (v & Hin & Hx).
  pose proof stakeGrid_closed as Hc; rewrite forallb_forall in Hc.
  specialize (Hc v Hin); rewrite forallb_forall in Hc.
  assert (Ho : In o [WIN; LOSS]) by (destruct o; simpl; auto).
  specialize (Hc o Ho); apply existsb_exists in Hc; destruct Hc as (w & Hw & Heq).
  apply Qeq_bool_iff in Heq.
  exists w; split; [exact Hw|]; rewrite (nextStake_Qeq o x v Hx); exact Heq.
Qed.

(** Starting from the constructor's 6.0, whatever the sequence of WIN/LOSS
    outcomes applied by [adjustStakePercentage], the stake is always one of
    2, 3, 4, 6, 8, 12 and 16 (so never the configured minimum 1.5). *)
Theorem stake_values :
  forall outcomes : list TradeOutcome,
    exists v, In v stakeGrid /\ currentStakePercentage (mem (applyOutcomes outcomes init)) == v.
Proof.
  intro outcomes.
  assert (Hgen : forall s, (exists v, In v stakeGrid /\ currentStakePercentage (mem s) == v) ->
            exists v, In v stakeGrid /\ currentStakePercentage (mem (applyOutcomes outcomes s)) == v).
  { induction outcomes as [|o rest IH]; intros s Hs; [exact Hs|].
    simpl; apply IH; rewrite stake_after; apply stakeGrid_step; exact Hs. }
  apply Hgen; exists 6; split; [simpl; auto 10 | reflexivity].
Qed.

End StakeExtra.


Module TickProofs.
Import PositionManager TradingStateManager TradingEngineTicks.

(** The calls a close may make: ticker fetches, delays and reduce-only
    orders (never an open-orders query). *)
Definition closeCall (c : ExchangeCall) : Prop :=
  match c with
  | CallCreateOrder op => reduceOnly op = Some true
  | CallFetchTicker => True
  | CallSleep _ => True
  | CallGetOpenLimitOrders _ => False
  end.

Lemma limitAttempt_closeCalls (p : Position) (e : Env) :
  exists new, calls (snd (limitAttempt p e)) = calls e ++ new /\ Forall closeCall new.
Proof.
  pose proof (CloseProofs.limitAttempt_calls p e) as H.
  destruct (replies e) as [|r rs]; [|destruct r as [t| | |]];
    try (rewrite H; eexists; split; [reflexivity | repeat constructor]).
  destruct H as [H _]; rewrite H.
  eexists; split; [reflexivity|].
  unfold CloseProofs.limitCallsOf; repeat constructor.
Qed.

Lemma limitLoop_closeCalls (fuel attempt : nat) (p : Position) (e : Env) :
  exists new, calls (snd (limitLoop fuel attempt p e)) = calls e ++ new /\ Forall closeCall new.
Proof.
  revert attempt e; induction fuel as [|fuel IH]; intros attempt e; simpl.
  - exists []; split; [rewrite app_nil_r; reflexivity | constructor].
  - destruct (Nat.ltb attempt maxRetries); [|exists []; split; [rewrite app_nil_r; reflexivity | constructor]].
    destruct (limitAttempt_closeCalls p e) as (n1 & H1 & F1).
    destruct (limitAttempt p e) as [[x|] e1]; simpl in H1.
    + exists n1; split; assumption.
    + set (e2 := if Nat.ltb (S attempt) maxRetries then sleep RETRY_DELAY e1 else e1).
      assert (H2 : exists n2, calls e2 = calls e1 ++ n2 /\ Forall closeCall n2).
      { unfold e2; destruct (Nat.ltb (S attempt) maxRetries).
        - exists [CallSleep RETRY_DELAY]; split; [reflexivity | repeat constructor].
        - exists []; split; [rewrite app_nil_r; reflexivity | constructor]. }
      destruct H2 as (n2 & H2 & F2).
      destruct (IH (S attempt) e2) as (n3 & H3 & F3).
      exists (n1 ++ n2 ++ n3); split.
      * rewrite H3, H2, H1, !app_assoc; reflexivity.
      * apply Forall_app; split; [exact F1|]; apply Forall_app; split; assumption.
Qed.

Lemma closePosition_closeCalls (fuel : nat) (p : Position) (reason : CloseReason) (now : Z) (e : Env) :
  exists new, calls (snd (PositionManager.closePosition fuel p reason now e)) = calls e ++ new /\
              Forall closeCall new.
Proof.
  unfold PositionManager.closePosition.
  destruct (limitLoop_closeCalls maxRetries 0 p e) as (n1 & H1 & F1).
  destruct (limitLoop maxRetries 0 p e) as [[x|] e1]; simpl in H1; [exists n1; split; assumption|].
  destruct (CloseProofs.marketLoop_calls fuel p e1) as (n2 & H2 & F2).
  assert (F2' : Forall closeCall n2).
  { eapply Forall_impl; [|exact F2]; intros c [->| ->]; simpl; reflexivity. }
  exists (n1 ++ n2).
  destruct (marketLoop fuel p e1) as [[y|] e2]; simpl in H2 |- *;
    (split; [rewrite H2, H1, app_assoc; reflexivity | apply Forall_app; split; assumption]).
Qed.

(** A tick while a position is held: the only exchange calls are those of
    a close (ticker fetches, delays and reduce-only orders; never an entry
    order, never an open-orders query), and afterwards the store holds
    either no position or the same position (same side, entry, amount and
    take-profit) with a stop that has not moved against it: not lower for
    LONG, not higher for SHORT. *)
Theorem holding_tick_reduce_only :
  forall (has : bool) (maxDailyLosses : Z) (fuel : nat) (tk : Tick) (b : Bot) (p : Position),
    getCurrentPosition (store b) = Some p ->
    let b' := handlePriceUpdate has maxDailyLosses fuel tk b in
    (exists new, calls (env b') = calls (env b) ++ new /\ Forall closeCall new) /\
    (getCurrentPosition (store b') = None \/
     exists p', getCurrentPosition (store b') = Some p' /\
       ptype p' = ptype p /\ entryPrice p' = entryPrice p /\ contractAmount p' = contractAmount p /\
       takeProfit p' = takeProfit p /\
       match ptype p with
       | LONG => stopLoss p <= stopLoss p'
       | SHORT => stopLoss p' <= stopLoss p
       end).
Proof.
  intros has maxDailyLosses fuel tk b p Hp; cbv zeta.
  assert (Hsame : exists p', getCurrentPosition (store b) = Some p' /\
       ptype p' = ptype p /\ entryPrice p' = entryPrice p /\ contractAmount p' = contractAmount p /\
       takeProfit p' = takeProfit p /\
       match ptype p with
       | LONG => stopLoss p <= stopLoss p'
       | SHORT => stopLoss p' <= stopLoss p
       end).
  { exists p; split; [exact Hp|]; repeat split; destruct (ptype p); apply Qle_refl. }
  assert (Hnone : exists new, calls (env b) = calls (env b) ++ new /\ Forall closeCall new).
  { exists []; split; [rewrite app_nil_r; reflexivity | constructor]. }
  unfold handlePriceUpdate; destruct (negb (isRunning (engine b))); [split; [exact Hnone | right; exact Hsame]|].
  rewrite Hp; unfold handleExistingPosition.
  destruct (shouldClose (checkExitConditions p (t_price tk)));
    [destruct (exit_reason (checkExitConditions p (t_price tk))) as [reason|]|].
  1: { unfold TradingEngineTicks.closePosition; rewrite Hp.
    destruct (closePosition_closeCalls fuel p reason (t_now tk) (env b)) as (new & Hc & Fc).
    destruct (PositionManager.closePosition fuel p reason (t_now tk) (env b)) as [[r|] env'];
      simpl in Hc |- *; (split; [exists new; split; assumption|]).
    + left; reflexivity.
    + right; exact Hsame. }
  all: unfold updateTrailingStop.
    all: destruct (Qeq_bool (calculateTrailingStop p (t_price tk)) (stopLoss p));
      [split; [exact Hnone | right; exact Hsame]|].
    all: split; [exact Hnone|]; right; cbn [store].
    all: unfold getCurrentPosition; rewrite (StopExtra.updateStopLoss_stored _ _ _ p Hp).
    all: eexists; split; [reflexivity|]; cbn [ptype entryPrice contractAmount takeProfit stopLoss].
    all: repeat split; unfold calculateTrailingStop, js_max, js_min;
      destruct (ptype p); repeat qcase_bool; lra.
Qed.

Definition sample_held : Position := mkPosition LONG 100 200 2 20 99.84 102 0 None [].

Definition sample_holding_bot : Bot :=
  mkBot (mkEngineState true false true 1 1) (setCurrentPosition sample_held init)
        RiskManager.init (mkEnv [RTicker 99.8; ROrder "c" 99.79] []) [].

Lemma holding_tick_reduce_only_witness :
  getCurrentPosition (store sample_holding_bot) = Some sample_held /\
  (exists new, calls (env (handlePriceUpdate true 3 1 (mkTick 99.8 1 0) sample_holding_bot)) =
               calls (env sample_holding_bot) ++ new /\ Forall closeCall new) /\
  (getCurrentPosition (store (handlePriceUpdate true 3 1 (mkTick 99.8 1 0) sample_holding_bot)) = None \/
   exists p', getCurrentPosition (store (handlePriceUpdate true 3 1 (mkTick 99.8 1 0) sample_holding_bot)) = Some p' /\
     ptype p' = ptype sample_held /\ entryPrice p' = entryPrice sample_held /\
     contractAmount p' = contractAmount sample_held /\ takeProfit p' = takeProfit sample_held /\
     match ptype sample_held with
     | LONG => stopLoss sample_held <= stopLoss p'
     | SHORT => stopLoss p' <= stopLoss sample_held
     end).
Proof.
  split; [reflexivity|].
  apply (holding_tick_reduce_only true 3 1 (mkTick 99.8 1 0) sample_holding_bot sample_held); reflexivity.
Defined.

Lemma tick_locked (has : bool) (maxDailyLosses : Z) (fuel : nat) (tk : Tick) (b : Bot) :
  getCurrentPosition (store b) = None -> (maxDailyLosses <= dailyLosses (risk b))%Z ->
  handlePriceUpdate has maxDailyLosses fuel tk b = b.
Proof.
  intros Hnone Hmax; unfold handlePriceUpdate.
  destruct (negb (isRunning (engine b))); [reflexivity|].
  rewrite Hnone; unfold checkForNewPosition; rewrite Hnone.
  destruct (isOpeningPosition (engine b)); [reflexivity|].
  unfold RiskManager.canOpenPosition; rewrite (proj2 (Z.leb_le _ _) Hmax).
  unfold with_risk; destruct b; reflexivity.
Qed.

(** Once the day's loss count has reached [maxDailyLosses] with no
    position open, every later price update leaves the whole bot
    unchanged, whatever the day of the update: [canOpenPosition] checks the
    count before it resets it on a new day, so the reset is never reached
    and the bot makes no exchange call, emits nothing and opens nothing
    again. *)
Theorem ticks_locked_after_daily_limit :
  forall (has : bool) (maxDailyLosses : Z) (fuel : nat) (ticks : list Tick) (b : Bot),
    getCurrentPosition (store b) = None ->
    (maxDailyLosses <= dailyLosses (risk b))%Z ->
    runTicks has maxDailyLosses fuel ticks b = b.
Proof.
  intros has maxDailyLosses fuel ticks b Hnone Hmax; unfold runTicks.
  induction ticks as [|tk ticks IH]; [reflexivity|].
  cbn [fold_left]; rewrite tick_locked by assumption; exact IH.
Qed.

Definition sample_locked_bot : Bot :=
  mkBot (mkEngineState true false true 1 1) (updateLevels EntryExtra.sample_levels 0 init)
        (mkRiskState 3 (Some 0%Z) (Some 1000)) (mkEnv [ROpenOrders 0; RTicker 100; ROrder "o" 100] []) [].

Lemma ticks_locked_after_daily_limit_witness :
  getCurrentPosition (store sample_locked_bot) = None /\
  (3 <= dailyLosses (risk sample_locked_bot))%Z /\
  runTicks true 3 1 [mkTick 100 1 0; mkTick 100 2 1; mkTick 100 3 7] sample_locked_bot = sample_locked_bot.
Proof.
  split; [reflexivity|]; split; [vm_compute; discriminate|].
  apply (ticks_locked_after_daily_limit true 3 1 [mkTick 100 1 0; mkTick 100 2 1; mkTick 100 3 7]
           sample_locked_bot); [reflexivity | vm_compute; discriminate].
Defined.

Lemma closePosition_result (fuel : nat) (p : Position) (reason : CloseReason) (now : Z)
  (e : Env) (r : TradeResult) (e' : Env) :
  PositionManager.closePosition fuel p reason now e = (Some r, e') ->
  tr_position r = p /\ tr_reason r = reason /\ exitTime r = now.
Proof.
  unfold PositionManager.closePosition.
  destruct (limitLoop maxRetries 0 p e) as [[x|] e1];
    [|destruct (marketLoop fuel p e1) as [[y|] e2]];
    intros H; inversion H; subst; repeat split.
Qed.

(** A tick that hits the stop or the take-profit of the held position, with
    a close that completes: the store's position is cleared (and the
    cleared state saved), a losing trade is counted by [handleLoss] and a
    winning one leaves the risk state alone, [positionClosed] is emitted
    with the result, and the engine flags are untouched. The result is
    about the held position, with the exit reason and the tick's time. *)
Theorem tick_close_composition :
  forall (has : bool) (maxDailyLosses : Z) (fuel : nat) (tk : Tick) (b : Bot)
         (p : Position) (reason : CloseReason) (r : TradeResult) (env' : Env),
    isRunning (engine b) = true ->
    getCurrentPosition (store b) = Some p ->
    checkExitConditions p (t_price tk) = mkExitCheck true (Some reason) ->
    PositionManager.closePosition fuel p reason (t_now tk) (env b) = (Some r, env') ->
    handlePriceUpdate has maxDailyLosses fuel tk b =
      mkBot (engine b) (clearCurrentPosition (store b))
        (if isLoss r then RiskManager.handleLoss (t_today tk) (risk b) else risk b)
        env' (emitted b ++ [EmPositionClosed r]) /\
    getCurrentPosition (clearCurrentPosition (store b)) = None /\
    head (written (clearCurrentPosition (store b))) = Some (mem (clearCurrentPosition (store b))) /\
    tr_position r = p /\ tr_reason r = reason /\ exitTime r = t_now tk.
Proof.
  intros has maxDailyLosses fuel tk b p reason r env' Hrun Hp Hexit Hclose.
  split; [|split; [reflexivity | split; [reflexivity | exact (closePosition_result _ _ _ _ _ _ _ Hclose)]]].
  unfold handlePriceUpdate; rewrite Hrun, Hp; cbn [negb].
  unfold handleExistingPosition; rewrite Hexit; cbn [shouldClose exit_reason].
  unfold TradingEngineTicks.closePosition; rewrite Hp, Hclose; reflexivity.
Qed.

Lemma tick_close_composition_witness :
  isRunning (engine sample_holding_bot) = true /\
  getCurrentPosition (store sample_holding_bot) = Some sample_held /\
  checkExitConditions sample_held 99.8 = mkExitCheck true (Some stopLossReason) /\
  PositionManager.closePosition 1 sample_held stopLossReason 1 (env sample_holding_bot) =
    (Some (mkCloseResult sample_held stopLossReason 1 (fixedNumber 99.79)),
     mkEnv [] [CallFetchTicker; CallCreateOrder (limitCloseParams sample_held (fixedNumber 99.8))]) /\
  (handlePriceUpdate true 3 1 (mkTick 99.8 1 0) sample_holding_bot =
     mkBot (engine sample_holding_bot) (clearCurrentPosition (store sample_holding_bot))
       (if isLoss (mkCloseResult sample_held stopLossReason 1 (fixedNumber 99.79))
        then RiskManager.handleLoss 0 (risk sample_holding_bot) else risk sample_holding_bot)
       (mkEnv [] [CallFetchTicker; CallCreateOrder (limitCloseParams sample_held (fixedNumber 99.8))])
       (emitted sample_holding_bot ++
          [EmPositionClosed (mkCloseResult sample_held stopLossReason 1 (fixedNumber 99.79))]) /\
   getCurrentPosition (clearCurrentPosition (store sample_holding_bot)) = None /\
   head (written (clearCurrentPosition (store sample_holding_bot))) =
     Some (mem (clearCurrentPosition (store sample_holding_bot))) /\
   tr_position (mkCloseResult sample_held stopLossReason 1 (fixedNumber 99.79)) = sample_held /\
   tr_reason (mkCloseResult sample_held stopLossReason 1 (fixedNumber 99.79)) = stopLossReason /\
   exitTime (mkCloseResult sample_held stopLossReason 1 (fixedNumber 99.79)) = t_now (mkTick 99.8 1 0)).
Proof.
  split; [reflexivity|]; split; [reflexivity|]; split; [vm_compute; reflexivity|].
  split; [vm_compute; reflexivity|].
  apply (tick_close_composition true 3 1 (mkTick 99.8 1 0) sample_holding_bot sample_held
           stopLossReason (mkCloseResult sample_held stopLossReason 1 (fixedNumber 99.79))
           (mkEnv [] [CallFetchTicker; CallCreateOrder (limitCloseParams sample_held (fixedNumber 99.8))]));
    vm_compute; reflexivity.
Defined.

(** A tick with no position, no open in progress, the risk check passing
    and an entry signal: the engine ends with its flags as before
    ([isOpeningPosition] is cleared again), the risk state is the one
    [canOpenPosition] left, and the outcome of
    [PositionManager.openPosition] decides the rest: on success the position
    is stored and [positionOpened] emitted; on failure the store is
    untouched, no position is held, and an [error] is emitted. *)
Theorem tick_open_composition :
  forall (has : bool) (maxDailyLosses : Z) (fuel : nat) (tk : Tick) (b : Bot) (sig : EntrySignal),
    isRunning (engine b) = true ->
    getCurrentPosition (store b) = None ->
    isOpeningPosition (engine b) = false ->
    fst (RiskManager.canOpenPosition maxDailyLosses (t_today tk) (risk b)) = true ->
    checkEntryConditions (store b) (t_price tk) (getLevels (store b)) = Some sig ->
    handlePriceUpdate has maxDailyLosses fuel tk b =
      match PositionManager.openPosition has (t_now tk) sig (env b) with
      | (Some p, env') =>
          mkBot (engine b) (setCurrentPosition p (store b))
            (snd (RiskManager.canOpenPosition maxDailyLosses (t_today tk) (risk b))) env'
            (emitted b ++ [EmPositionOpened p])
      | (None, env') =>
          mkBot (engine b) (store b)
            (snd (RiskManager.canOpenPosition maxDailyLosses (t_today tk) (risk b))) env'
            (emitted b ++ [EmError])
      end.
Proof.
  intros has maxDailyLosses fuel tk b sig Hrun Hnone Hopen Hok Hentry.
  unfold handlePriceUpdate; rewrite Hrun, Hnone; cbn [negb].
  unfold checkForNewPosition; rewrite Hnone, Hopen.
  destruct (RiskManager.canOpenPosition maxDailyLosses (t_today tk) (risk b)) as [ok r'].
  cbn [fst snd] in Hok |- *; subst ok; cbn [negb].
  change (store (with_risk b r')) with (store b); rewrite Hentry.
  unfold TradingEngineTicks.openPosition, with_opening, with_risk; cbn [store engine risk env emitted].
  unfold getCurrentPosition in Hnone; cbn [isRunning isOpeningPosition streamActive levelTimers levelRefreshes].
  unfold getCurrentPosition; rewrite Hnone.
  destruct b as [[ir io sa lt lr] st rk en em]; cbn in Hopen; subst io; cbn.
  destruct (PositionManager.openPosition has (t_now tk) sig en) as [[p|] env']; reflexivity.
Qed.

Definition sample_open_bot : Bot :=
  mkBot (mkEngineState true false true 1 1) (updateLevels EntryExtra.sample_levels 0 init)
        RiskManager.init (mkEnv [ROpenOrders 0; RTicker 100; ROrder "o" 100] []) [].

Lemma tick_open_composition_witness :
  checkEntryConditions (store sample_open_bot) 100 (getLevels (store sample_open_bot)) =
    Some (createEntrySignal (store sample_open_bot) LONG 100 (mkPriceLevel 102 0)) /\
  handlePriceUpdate true 3 1 (mkTick 100 1 0) sample_open_bot =
    match PositionManager.openPosition true 1
            (createEntrySignal (store sample_open_bot) LONG 100 (mkPriceLevel 102 0)) (env sample_open_bot) with
    | (Some p, env') =>
        mkBot (engine sample_open_bot) (setCurrentPosition p (store sample_open_bot))
          (snd (RiskManager.canOpenPosition 3 0 (risk sample_open_bot))) env'
          (emitted sample_open_bot ++ [EmPositionOpened p])
    | (None, env') =>
        mkBot (engine sample_open_bot) (store sample_open_bot)
          (snd (RiskManager.canOpenPosition 3 0 (risk sample_open_bot))) env'
          (emitted sample_open_bot ++ [EmError])
    end.
Proof.
  split; [vm_compute; reflexivity|].
  apply (tick_open_composition true 3 1 (mkTick 100 1 0) sample_open_bot
           (createEntrySignal (store sample_open_bot) LONG 100 (mkPriceLevel 102 0)));
    vm_compute; reflexivity.
Defined.

(** What a tick never touches. *)
Definition tickFrame (b b' : Bot) : Prop :=
  engine b' = engine b /\
  currentStakePercentage (mem (store b')) = currentStakePercentage (mem (store b)) /\
  accountBalance (mem (store b')) = accountBalance (mem (store b)) /\
  lastLevels (mem (store b')) = lastLevels (mem (store b)) /\
  initialBalance (risk b') = initialBalance (risk b).

Lemma tickFrame_refl (b : Bot) : tickFrame b b.
Proof. repeat split. Qed.

Lemma tickFrame_trans (b1 b2 b3 : Bot) : tickFrame b1 b2 -> tickFrame b2 b3 -> tickFrame b1 b3.
Proof.
  intros (A1 & B1 & C1 & D1 & E1) (A2 & B2 & C2 & D2 & E2).
  repeat split; congruence.
Qed.

Lemma updateStopLoss_keeps_settings (now : Z) (v : Q) (s : Store) :
  currentStakePercentage (mem (updateStopLoss now v s)) = currentStakePercentage (mem s) /\
  accountBalance (mem (updateStopLoss now v s)) = accountBalance (mem s) /\
  lastLevels (mem (updateStopLoss now v s)) = lastLevels (mem s).
Proof. unfold updateStopLoss; destruct (getCurrentPosition s); repeat split. Qed.

Lemma tick_frame (has : bool) (maxDailyLosses : Z) (fuel : nat) (tk : Tick) (b : Bot) :
  tickFrame b (handlePriceUpdate has maxDailyLosses fuel tk b).
Proof.
  unfold handlePriceUpdate.
  destruct (negb (isRunning (engine b))); [apply tickFrame_refl|].
  destruct (getCurrentPosition (store b)) as [p|] eqn:Hp.
  - unfold handleExistingPosition.
    destruct (shouldClose (checkExitConditions p (t_price tk)));
      [destruct (exit_reason (checkExitConditions p (t_price tk))) as [reason|]|].
    1: { unfold TradingEngineTicks.closePosition; rewrite Hp.
         destruct (PositionManager.closePosition fuel p reason (t_now tk) (env b)) as [[r|] e'];
           [|repeat split].
         repeat split; destruct (isLoss r); reflexivity. }
    all: unfold updateTrailingStop; destruct (Qeq_bool _ _); [apply tickFrame_refl|].
    all: destruct (updateStopLoss_keeps_settings (t_now tk) (calculateTrailingStop p (t_price tk)) (store b))
           as (A & B & C); repeat split; assumption.
  - unfold checkForNewPosition; rewrite Hp.
    destruct (isOpeningPosition (engine b)) eqn:Ho; [apply tickFrame_refl|].
    assert (Hr : forall ok r', RiskManager.canOpenPosition maxDailyLosses (t_today tk) (risk b) = (ok, r') ->
                               initialBalance r' = initialBalance (risk b)).
    { unfold RiskManager.canOpenPosition; intros ok r'.
      destruct (Z.leb _ _); [intros H; inversion H; reflexivity|].
      destruct (lastLossDate (risk b)); [destruct (Z.eqb _ _)|]; intros H; inversion H; reflexivity. }
    destruct (RiskManager.canOpenPosition maxDailyLosses (t_today tk) (risk b)) as [ok r'] eqn:Hc.
    specialize (Hr ok r' eq_refl).
    destruct (negb ok); [repeat split; cbn; assumption|].
    destruct (checkEntryConditions _ _ _) as [sig|]; [|repeat split; cbn; assumption].
    unfold TradingEngineTicks.openPosition, with_opening, with_risk; cbn [store engine risk env emitted].
    rewrite Hp.
    destruct b as [[ir io sa lt lr] st rk en em]; cbn in Ho |- *; subst io.
    destruct (PositionManager.openPosition has (t_now tk) sig en) as [[p|] env'];
      repeat split; assumption.
Qed.

(** Over any stream of price updates the engine flags, the stake
    percentage, the account balance, the stored levels and the drawdown
    baseline stay as they were: the tick path never adjusts the stake after
    a trade, never refreshes the balance (only [start] sets it) and never
    rewrites the levels (only the level-update timer does). *)
Theorem ticks_frame :
  forall (has : bool) (maxDailyLosses : Z) (fuel : nat) (ticks : list Tick) (b : Bot),
    tickFrame b (runTicks has maxDailyLosses fuel ticks b).
Proof.
  intros has maxDailyLosses fuel ticks; unfold runTicks.
  induction ticks as [|tk ticks IH]; intros b; [apply tickFrame_refl|].
  cbn [fold_left]; eapply tickFrame_trans; [apply tick_frame | apply IH].
Qed.

End TickProofs.

Module ConnectorProofs.
Import BinanceConnector.

Lemma reconnectDelay_small (a : nat) : (a < 5)%nat -> reconnectDelay (S a) = (1000 * 2 ^ Z.of_nat a)%Z.
Proof.
  intros H; assert (a = 0 \/ a = 1 \/ a = 2 \/ a = 3 \/ a = 4)%nat as Ha by lia.
  destruct Ha as [->|[->|[->|[->| ->]]]]; reflexivity.
Qed.

Lemma close_step (c : Conn) :
  (reconnectAttempts c < 5)%nat ->
  step c WsClose = (mkConn true false (S (reconnectAttempts c)),
                    [EffSleep (reconnectDelay (S (reconnectAttempts c))); EffNewSocket]).
Proof.
  intros H; cbn [step]; unfold handleDisconnect, clearPingInterval, maxReconnectAttempts;
  cbn [reconnectAttempts ws pingInterval].
  rewrite (proj2 (PeanoNat.Nat.ltb_lt _ _) H); reflexivity.
Qed.

Lemma close_step_max (c : Conn) :
  (5 <= reconnectAttempts c)%nat ->
  step c WsClose = (mkConn (ws c) false (reconnectAttempts c), [EffMaxReached]).
Proof.
  intros H; cbn [step]; unfold handleDisconnect, clearPingInterval, maxReconnectAttempts;
  cbn [reconnectAttempts ws pingInterval].
  rewrite (proj2 (PeanoNat.Nat.ltb_ge _ _) H); reflexivity.
Qed.

(** The reconnection schedule of [handleDisconnect]: starting from
    [reconnectAttempts = a <= 5], [n] successive socket closes (each new
    socket failing before it opens) wait 1000 * 2^k ms and open a new
    socket for k = a, a+1, ... while fewer than [maxReconnectAttempts]
    attempts have been made, and then only report that the maximum is
    reached. The delays are 1000, 2000, 4000, 8000 and 16000 ms: the 30000
    ms cap of the code is never reached. *)
Theorem consecutive_disconnects :
  forall (c : Conn) (n : nat),
    (reconnectAttempts c <= 5)%nat ->
    snd (run c (repeat WsClose n)) =
      flat_map (fun k => [EffSleep (1000 * 2 ^ Z.of_nat k); EffNewSocket])
               (seq (reconnectAttempts c) (Nat.min n (5 - reconnectAttempts c))) ++
      repeat EffMaxReached (n - (5 - reconnectAttempts c)) /\
    reconnectAttempts (fst (run c (repeat WsClose n))) = Nat.min (reconnectAttempts c + n) 5.
Proof.
  intros c n; revert c; induction n as [|n IH]; intros c H.
  - cbn; split; [reflexivity | lia].
  - cbn [repeat run].
    destruct (PeanoNat.Nat.lt_ge_cases (reconnectAttempts c) 5) as [Hlt|Hge].
    + rewrite (close_step c Hlt).
      destruct (IH (mkConn true false (S (reconnectAttempts c)))) as [IH1 IH2]; [cbn; lia|].
      destruct (run (mkConn true false (S (reconnectAttempts c))) (repeat WsClose n)) as [c2 e2].
      cbn [fst snd reconnectAttempts] in IH1, IH2 |- *.
      replace (5 - reconnectAttempts c)%nat with (S (5 - S (reconnectAttempts c))) by lia.
      cbn [Nat.min seq flat_map].
      rewrite reconnectDelay_small by exact Hlt.
      split; [rewrite IH1; reflexivity | lia].
    + rewrite (close_step_max c Hge).
      assert (Hc : reconnectAttempts c = 5%nat) by lia.
      destruct (IH (mkConn (ws c) false (reconnectAttempts c))) as [IH1 IH2]; [cbn; lia|].
      destruct (run (mkConn (ws c) false (reconnectAttempts c)) (repeat WsClose n)) as [c2 e2].
      cbn [fst snd reconnectAttempts] in IH1, IH2 |- *.
      rewrite Hc in IH1, IH2 |- *; change (5 - 5)%nat with 0%nat in IH1 |- *.
      rewrite PeanoNat.Nat.min_0_r, PeanoNat.Nat.sub_0_r in IH1 |- *.
      cbn [seq flat_map app repeat] in IH1 |- *.
      split; [rewrite IH1; reflexivity | lia].
Qed.

Lemma consecutive_disconnects_witness :
  (reconnectAttempts init <= 5)%nat /\
  snd (run init (repeat WsClose 7)) =
    flat_map (fun k => [EffSleep (1000 * 2 ^ Z.of_nat k); EffNewSocket])
             (seq (reconnectAttempts init) (Nat.min 7 (5 - reconnectAttempts init))) ++
    repeat EffMaxReached (7 - (5 - reconnectAttempts init)) /\
  reconnectAttempts (fst (run init (repeat WsClose 7))) = Nat.min (reconnectAttempts init + 7) 5.
Proof.
  split; [cbn; lia|].
  apply (consecutive_disconnects init 7); cbn; lia.
Defined.

Definition sleepBounded (e : ConnEffect) : Prop :=
  match e with
  | EffSleep ms => (1000 <= ms <= 16000)%Z
  | _ => True
  end.

Lemma handleDisconnect_inv (c : Conn) :
  (reconnectAttempts c <= 5)%nat ->
  (reconnectAttempts (fst (handleDisconnect c)) <= 5)%nat /\ Forall sleepBounded (snd (handleDisconnect c)).
Proof.
  intros H; unfold handleDisconnect, clearPingInterval; cbn [reconnectAttempts ws pingInterval].
  destruct (Nat.ltb (reconnectAttempts c) maxReconnectAttempts) eqn:E.
  - apply PeanoNat.Nat.ltb_lt in E; unfold maxReconnectAttempts in E.
    cbn; split; [lia|]; constructor; [|repeat constructor]; cbn [sleepBounded].
    rewrite reconnectDelay_small by exact E.
    assert (reconnectAttempts c = 0 \/ reconnectAttempts c = 1 \/ reconnectAttempts c = 2 \/
            reconnectAttempts c = 3 \/ reconnectAttempts c = 4)%nat as Ha by lia.
    destruct Ha as [->|[->|[->|[->| ->]]]]; cbn; lia.
  - cbn; split; [exact H | repeat constructor].
Qed.

Lemma step_inv (c : Conn) (ev : ConnEvent) :
  (reconnectAttempts c <= 5)%nat ->
  (reconnectAttempts (fst (step c ev)) <= 5)%nat /\ Forall sleepBounded (snd (step c ev)).
Proof.
  intros H; destruct ev; cbn [step].
  - cbn; split; [lia | repeat constructor].
  - apply handleDisconnect_inv; exact H.
  - cbn; split; [exact H | repeat constructor].
  - unfold stopPriceStream; destruct (ws c); cbn; split; [exact H | constructor | exact H | constructor].
Qed.

(** Whatever the events of the sockets and the calls of
    [stopPriceStream], a connector whose attempt count starts within
    [maxReconnectAttempts] keeps it there, and every reconnect delay it
    waits lies between 1 and 16 seconds. *)
Theorem reconnect_bounds :
  forall (c : Conn) (evs : list ConnEvent),
    (reconnectAttempts c <= 5)%nat ->
    (reconnectAttempts (fst (run c evs)) <= 5)%nat /\ Forall sleepBounded (snd (run c evs)).
Proof.
  intros c evs; revert c; induction evs as [|ev evs IH]; intros c H.
  - cbn; split; [exact H | constructor].
  - cbn [run]; destruct (step_inv c ev H) as [A B].
    destruct (step c ev) as [c1 e1]; cbn in A, B.
    destruct (IH c1 A) as [C D]; destruct (run c1 evs) as [c2 e2]; cbn in C, D |- *.
    split; [exact C | apply Forall_app; split; assumption].
Qed.

Lemma reconnect_bounds_witness :
  (reconnectAttempts init <= 5)%nat /\
  (reconnectAttempts (fst (run init [WsClose; WsError; WsOpen; WsClose; StopStream; WsClose])) <= 5)%nat /\
  Forall sleepBounded (snd (run init [WsClose; WsError; WsOpen; WsClose; StopStream; WsClose])).
Proof.
  split; [cbn; lia|].
  apply (reconnect_bounds init [WsClose; WsError; WsOpen; WsClose; StopStream; WsClose]); cbn; lia.
Defined.

(** [stopPriceStream] closes the socket and drops [this.ws], but the closed
    socket's [close] handler is still installed and calls
    [handleDisconnect]: when fewer than [maxReconnectAttempts] attempts have
    been made, stopping the stream is followed by a delay and a new socket,
    and the connector ends with a socket again. *)
Theorem stop_then_close_reconnects :
  forall c : Conn,
    (reconnectAttempts c < 5)%nat ->
    run c [StopStream; WsClose] =
      (mkConn true false (S (reconnectAttempts c)),
       [EffSleep (reconnectDelay (S (reconnectAttempts c))); EffNewSocket]).
Proof.
  intros c H; cbn [run step].
  assert (Hs : reconnectAttempts (stopPriceStream c) = reconnectAttempts c)
    by (unfold stopPriceStream; destruct (ws c); reflexivity).
  pose proof (close_step (stopPriceStream c)) as Hc; cbn [step] in Hc.
  rewrite Hs in Hc; rewrite (Hc H); reflexivity.
Qed.

Lemma stop_then_close_reconnects_witness :
  (reconnectAttempts (mkConn true true 0) < 5)%nat /\
  run (mkConn true true 0) [StopStream; WsClose] =
    (mkConn true false (S (reconnectAttempts (mkConn true true 0))),
     [EffSleep (reconnectDelay (S (reconnectAttempts (mkConn true true 0)))); EffNewSocket]).
Proof.
  split; [cbn; lia|].
  apply (stop_then_close_reconnects (mkConn true true 0)); cbn; lia.
Defined.

(** The MEXC connector's [attemptReconnect] follows the same schedule as
    the Binance connector's [handleDisconnect]: from any attempt count it
    makes the same new count and the same delay, new-socket and
    maximum-reached effects. *)
Theorem mexc_binance_same_schedule :
  forall (w p : bool) (n : nat),
    fst (MEXCConnector.attemptReconnect n) = reconnectAttempts (fst (handleDisconnect (mkConn w p n))) /\
    snd (MEXCConnector.attemptReconnect n) = snd (handleDisconnect (mkConn w p n)).
Proof.
  intros w p n; unfold MEXCConnector.attemptReconnect, handleDisconnect, clearPingInterval.
  cbn [reconnectAttempts ws pingInterval].
  unfold MEXCConnector.maxReconnectAttempts, maxReconnectAttempts.
  destruct (Nat.ltb n 5) eqn:E.
  - apply PeanoNat.Nat.ltb_lt in E.
    rewrite (proj2 (PeanoNat.Nat.leb_gt 5 n) E); cbn; split; reflexivity.
  - apply PeanoNat.Nat.ltb_ge in E.
    rewrite (proj2 (PeanoNat.Nat.leb_le 5 n) E); cbn; split; reflexivity.
Qed.

Fixpoint countNewSockets (effs : list ConnEffect) : nat :=
  match effs with
  | [] => 0
  | EffNewSocket :: rest => S (countNewSockets rest)
  | _ :: rest => countNewSockets rest
  end.

Fixpoint countCloses (evs : list ConnEvent) : nat :=
  match evs with
  | [] => 0
  | WsClose :: rest => S (countCloses rest)
  | _ :: rest => countCloses rest
  end.

Lemma countNewSockets_app (a b : list ConnEffect) :
  countNewSockets (a ++ b) = (countNewSockets a + countNewSockets b)%nat.
Proof. induction a as [|x a IH]; [reflexivity|]; destruct x; cbn; rewrite ?IH; reflexivity. Qed.

Lemma step_new_sockets (c : Conn) (ev : ConnEvent) :
  (countNewSockets (snd (step c ev)) <= countCloses [ev])%nat.
Proof.
  destruct ev; cbn [step countCloses].
  - cbn; lia.
  - unfold handleDisconnect; destruct (Nat.ltb _ _); cbn; lia.
  - cbn; lia.
  - cbn; lia.
Qed.

(** Only a socket's [close] event leads to a reconnection: an [error] event
    re-emits the error (which throws) and leaves the connector as it was,
    and over any sequence of events the connector opens at most one new
    socket per [close] event. *)
Theorem only_closes_reconnect :
  forall (c : Conn) (evs : list ConnEvent),
    run c (WsError :: evs) = (fst (run c evs), EffSocketError :: snd (run c evs)) /\
    (countNewSockets (snd (run c evs)) <= countCloses evs)%nat.
Proof.
  intros c evs; split.
  - cbn [run step]; destruct (run c evs); reflexivity.
  - revert c; induction evs as [|ev evs IH]; intros c; [cbn; lia|].
    cbn [run]; pose proof (step_new_sockets c ev) as Hs.
    destruct (step c ev) as [c1 e1]; cbn [snd] in Hs.
    specialize (IH c1); destruct (run c1 evs) as [c2 e2]; cbn [snd] in IH |- *.
    rewrite countNewSockets_app.
    replace (countCloses (ev :: evs)) with (countCloses [ev] + countCloses evs)%nat
      by (destruct ev; reflexivity).
    lia.
Qed.

End ConnectorProofs.
